(** * Interrupt-driven temperature predictor: call-level model of [main.cpp]

    [main.cpp] wires four global devices (an error LED, a button, a debounce
    timer and a 60 s timer) and a watchdog through the [driver] library.  The
    file contains no arithmetic of its own: every statement is a call into a
    driver ([gpio.h], [timer.h], [watchdog.h], [adc.h], [serial.h]) or into
    [ml::LinReg].  The functions of [main.cpp] are therefore embedded as
    programs over the driver interface (a free monad whose nodes are the driver
    calls), and the properties are stated on the sequences of driver calls those
    programs perform, for every behaviour of the drivers' return values. *)

From Stdlib Require Import ZArith List String Ascii Bool QArith Qabs Lia.
Import ListNotations.
Local Open Scope Z_scope.
Local Open Scope string_scope.
Local Open Scope list_scope.

(** ** Numbers

    [double] values only flow from the training vectors and from
    [LinReg::predict] into comparisons and into [static_cast<int>]; their
    representation on the target is not fixed by [main.cpp], so the type and
    its operations are an interface. *)
Class Floating : Type := {
  double : Type;
  (** the value of a decimal literal of the source *)
  double_lit : Q -> double;
  double_ltb : double -> double -> bool;
  double_add : double -> double -> double;
  double_sub : double -> double -> double;
  double_mul : double -> double -> double;
  (** [static_cast<int>] *)
  static_cast_int : double -> Z
}.

(** ** Devices *)

Module GPIO.
Inductive Direction : Type := Output | Input | InputPullup.
Record t : Type := new { pin : Z; direction : Direction }.
End GPIO.

Module Timer.
(** The members of [Timer::Circuit] that [main.cpp] names. *)
Inductive Circuit : Type := Circuit_debounceTimer | Circuit_predictionTimer.
Record t : Type := new { circuit : Circuit; period_ms : Z }.
End Timer.

Module watchdog.
(** Modelled from the spec: [watchdog::Timeout] is declared in [watchdog.h];
    [main.cpp] names [Timeout1024ms] only.  The spec (4.3) describes "a fixed
    enumerated set of supported durations (e.g., ~16ms up to ~8s
    granularity)". *)
Inductive Timeout : Type :=
| Timeout16ms | Timeout32ms | Timeout64ms | Timeout128ms | Timeout256ms
| Timeout512ms | Timeout1024ms | Timeout2048ms | Timeout4096ms | Timeout8192ms.

Definition milliseconds (t : Timeout) : Z :=
  match t with
  | Timeout16ms => 16 | Timeout32ms => 32 | Timeout64ms => 64
  | Timeout128ms => 128 | Timeout256ms => 256 | Timeout512ms => 512
  | Timeout1024ms => 1024 | Timeout2048ms => 2048 | Timeout4096ms => 4096
  | Timeout8192ms => 8192
  end.
End watchdog.

(** The three functions of [main.cpp] whose address is passed to
    [addCallback]. *)
Inductive Callback : Type :=
| fn_buttonCallback
| fn_debounceTimerCallback
| fn_predictionTimerCallback.

(** ** The driver interface *)

Section Interface.
Context {F : Floating}.

(** Driver calls returning [void]. *)
Inductive Cmd : Type :=
| GPIO_construct (g : GPIO.t)
| Timer_construct (t : Timer.t)
| adc_init
| serial_init
| serial_printf (format : string) (args : list Z)
| LinReg_construct (weight bias : double)
    (trainingInput trainingOutput : list double) (learningRate : double)
| GPIO_set (g : GPIO.t)
| GPIO_addCallback (g : GPIO.t) (f : Callback)
| GPIO_enableInterrupt (g : GPIO.t)
| GPIO_disableInterruptsOnIoPort (g : GPIO.t)
| GPIO_enableInterruptsOnIoPort (g : GPIO.t)
| Timer_start (t : Timer.t)
| Timer_stop (t : Timer.t)
| Timer_addCallback (t : Timer.t) (f : Callback)
| watchdog_init (timeout : watchdog.Timeout)
| watchdog_enableSystemReset
| watchdog_reset.

(** Driver calls returning [bool]. *)
Inductive BoolQuery : Type :=
| LinReg_train (epochs : Z)
| GPIO_read (g : GPIO.t).

(** Driver calls returning [double]. *)
Inductive DoubleQuery : Type :=
| LinReg_predict (input : double)
| adc_getDutyCycle (pin : Z).

(** A program is a tree of driver calls; a call that returns a value
    continues with a function of that value. *)
Inductive Prog (A : Type) : Type :=
| Ret (a : A)
| Do (c : Cmd) (k : Prog A)
| AskBool (q : BoolQuery) (k : bool -> Prog A)
| AskDouble (q : DoubleQuery) (k : double -> Prog A).

Arguments Ret {A} a.
Arguments Do {A} c k.
Arguments AskBool {A} q k.
Arguments AskDouble {A} q k.

Fixpoint bind {A B : Type} (p : Prog A) (f : A -> Prog B) : Prog B :=
  match p with
  | Ret a => f a
  | Do c k => Do c (bind k f)
  | AskBool q k => AskBool q (fun r => bind (k r) f)
  | AskDouble q k => AskDouble q (fun r => bind (k r) f)
  end.

Definition call (c : Cmd) : Prog unit := Do c (Ret tt).
Definition ask_bool (q : BoolQuery) : Prog bool := AskBool q Ret.
Definition ask_double (q : DoubleQuery) : Prog double := AskDouble q Ret.

(** Range-based [for]. *)
Fixpoint for_each {X : Type} (xs : list X) (body : X -> Prog unit)
  : Prog unit :=
  match xs with
  | [] => Ret tt
  | x :: rest => bind (body x) (fun _ => for_each rest body)
  end.

End Interface.

Arguments Ret {F A} a.
Arguments Do {F A} c k.
Arguments AskBool {F A} q k.
Arguments AskDouble {F A} q k.

Declare Scope prog_scope.
Delimit Scope prog_scope with prog.
Notation "x <- p ;; q" := (bind p (fun x => q))
  (at level 61, p at next level, right associativity) : prog_scope.
Notation "p ;; q" := (bind p (fun _ => q))
  (at level 61, right associativity) : prog_scope.
Local Open Scope prog_scope.

(** ** [main.cpp] *)

Section Main.
Context {F : Floating}.

Definition tempSensorPin : Z := 2.
Definition Vcc : double := double_lit 5.

Definition errorLed : GPIO.t := GPIO.new 9 GPIO.Output.
Definition predictionButton : GPIO.t := GPIO.new 13 GPIO.InputPullup.
Definition debounceTimer : Timer.t :=
  Timer.new Timer.Circuit_debounceTimer 300.
Definition predictionTimer : Timer.t :=
  Timer.new Timer.Circuit_predictionTimer 60000.

(** Construction of the namespace-scope objects, in declaration order; it
    runs before [main]. *)
Definition static_initialization : Prog unit :=
  call (GPIO_construct errorLed) ;;
  call (GPIO_construct predictionButton) ;;
  call (Timer_construct debounceTimer) ;;
  call (Timer_construct predictionTimer).

Definition inputVoltage (pin : Z) : Prog double :=
  dutyCycle <- ask_double (adc_getDutyCycle pin) ;;
  Ret (double_mul dutyCycle Vcc).

(** Both branches of the [if] are empty: its block holds two comments. *)
Definition buttonCallback : Prog unit :=
  call (GPIO_disableInterruptsOnIoPort predictionButton) ;;
  call (Timer_start debounceTimer) ;;
  level <- ask_bool (GPIO_read predictionButton) ;;
  if level then Ret tt else Ret tt.

Definition debounceTimerCallback : Prog unit :=
  call (Timer_stop debounceTimer) ;;
  call (GPIO_enableInterruptsOnIoPort predictionButton).

(** The body is a comment. *)
Definition predictionTimerCallback : Prog unit :=
  Ret tt.

Definition newline : string := String (ascii_of_nat 10) EmptyString.

Definition trainingInput : list double :=
  map double_lit
    [0; 1 # 10; 2 # 10; 3 # 10; 4 # 10; 5 # 10; 6 # 10; 7 # 10; 8 # 10;
     9 # 10; 1]%Q.

Definition treiningOutput : list double :=
  map double_lit
    [-50 # 1; -40 # 1; -30 # 1; -20 # 1; -10 # 1; 0; 10 # 1; 20 # 1; 30 # 1;
     40 # 1; 50 # 1]%Q.

(** The body of the range-based [for] of [setup]; [predict] is called once
    for the test and once more for the value printed. *)
Definition print_prediction (input : double) : Prog unit :=
  p <- ask_double (LinReg_predict input) ;;
  if double_ltb p (double_lit 0) then
    p' <- ask_double (LinReg_predict input) ;;
    call (serial_printf "%d "
            [static_cast_int (double_sub p' (double_lit (1 # 2)))])
  else
    p' <- ask_double (LinReg_predict input) ;;
    call (serial_printf "%d "
            [static_cast_int (double_add p' (double_lit (1 # 2)))]).

(** What [setup] does after a successful training. *)
Definition setup_trained : Prog unit :=
  for_each trainingInput print_prediction ;;
  call (GPIO_addCallback predictionButton fn_buttonCallback) ;;
  call (Timer_addCallback debounceTimer fn_debounceTimerCallback) ;;
  call (Timer_addCallback predictionTimer fn_predictionTimerCallback) ;;
  call (GPIO_enableInterrupt predictionButton) ;;
  call (watchdog_init watchdog.Timeout1024ms) ;;
  call watchdog_enableSystemReset.

(** The early [return] of the failure branch ends [setup]; everything below
    it in the source is the other branch here. *)
Definition setup : Prog unit :=
  call adc_init ;;
  call serial_init ;;
  call (LinReg_construct (double_lit 0) (double_lit 0)
          trainingInput treiningOutput (double_lit (1 # 10))) ;;
  trained <- ask_bool (LinReg_train 100) ;;
  if negb trained then
    call (GPIO_set errorLed) ;;
    call (serial_printf ("Training failed!" ++ newline) []) ;;
    Ret tt
  else
    setup_trained.

(** The body of [while (1)]. *)
Definition loop_body : Prog unit :=
  call watchdog_reset.

(** [main] never returns: it is [setup] followed by [loop_body] for ever.
    [main_upto n] is [main] cut after [n] iterations of the loop. *)
Fixpoint iterate (n : nat) (body : Prog unit) : Prog unit :=
  match n with
  | O => Ret tt
  | S m => body ;; iterate m body
  end.

Definition main_upto (n : nat) : Prog unit :=
  setup ;; iterate n loop_body.

Definition callback_body (f : Callback) : Prog unit :=
  match f with
  | fn_buttonCallback => buttonCallback
  | fn_debounceTimerCallback => debounceTimerCallback
  | fn_predictionTimerCallback => predictionTimerCallback
  end.

End Main.

(** ** Executions

    An execution records every driver call in order, with the value it
    returned.  The returned values are chosen by the world outside
    [main.cpp]; a [World] may answer differently at every point of the
    history, so quantifying over worlds covers every behaviour of the
    drivers. *)

Section Semantics.
Context {F : Floating}.

Inductive Event : Type :=
| Called (c : Cmd)
| ReturnedBool (q : BoolQuery) (r : bool)
| ReturnedDouble (q : DoubleQuery) (r : double).

Record World : Type := {
  answer_bool : list Event -> BoolQuery -> bool;
  answer_double : list Event -> DoubleQuery -> double
}.

(** [run w h p]: the value [p] returns and the events it adds when started
    after history [h]. *)
Fixpoint run {A : Type} (w : World) (h : list Event) (p : Prog A)
  : A * list Event :=
  match p with
  | Ret a => (a, [])
  | Do c k =>
      let '(a, t) := run w (h ++ [Called c]) k in
      (a, Called c :: t)
  | AskBool q k =>
      let r := answer_bool w h q in
      let '(a, t) := run w (h ++ [ReturnedBool q r]) (k r) in
      (a, ReturnedBool q r :: t)
  | AskDouble q k =>
      let r := answer_double w h q in
      let '(a, t) := run w (h ++ [ReturnedDouble q r]) (k r) in
      (a, ReturnedDouble q r :: t)
  end.

Definition trace {A : Type} (w : World) (h : list Event) (p : Prog A)
  : list Event :=
  snd (run w h p).

(** The trace of the whole program after [n] iterations of the main loop:
    static construction, then [main]. *)
Definition program_trace (w : World) (n : nat) : list Event :=
  trace w [] (static_initialization ;; main_upto n).

(** Classification of events. *)
Definition registers_callback (e : Event) : bool :=
  match e with
  | Called (GPIO_addCallback _ _) | Called (Timer_addCallback _ _) => true
  | _ => false
  end.

Definition enables_interrupt (e : Event) : bool :=
  match e with
  | Called (GPIO_enableInterrupt _)
  | Called (GPIO_enableInterruptsOnIoPort _) => true
  | _ => false
  end.

Definition touches_watchdog (e : Event) : bool :=
  match e with
  | Called (watchdog_init _) | Called watchdog_enableSystemReset
  | Called watchdog_reset => true
  | _ => false
  end.

Definition is_watchdog_init (e : Event) : bool :=
  match e with
  | Called (watchdog_init _) => true
  | _ => false
  end.

Definition is_watchdog_arming (e : Event) : bool :=
  match e with
  | Called (watchdog_init _) | Called watchdog_enableSystemReset => true
  | _ => false
  end.

(** The events of the prediction printout of [setup]. *)
Definition is_printout (e : Event) : bool :=
  match e with
  | ReturnedDouble (LinReg_predict _) _ => true
  | Called (serial_printf _ _) => true
  | _ => false
  end.

End Semantics.

(** ** The drivers' state and interrupt dispatch

    [gpio.h], [timer.h] and [watchdog.h] are not part of the sources at hand.
    The statements about masking and arming need the state those drivers keep,
    which is taken from the specification (sections 3 and 4.1 to 4.4). *)

(** The assignment of pins to I/O ports belongs to the target board. *)
Class Board : Type := {
  ioPort : Z -> Z
}.

Definition Circuit_eqb (a b : Timer.Circuit) : bool :=
  match a, b with
  | Timer.Circuit_debounceTimer, Timer.Circuit_debounceTimer => true
  | Timer.Circuit_predictionTimer, Timer.Circuit_predictionTimer => true
  | _, _ => false
  end.

Definition set_pin {V : Type} (f : Z -> V) (k : Z) (v : V) : Z -> V :=
  fun x => if Z.eqb x k then v else f x.

Definition set_circuit {V : Type} (f : Timer.Circuit -> V)
  (k : Timer.Circuit) (v : V) : Timer.Circuit -> V :=
  fun x => if Circuit_eqb x k then v else f x.

(** Modelled from the spec: the attributes of section 3 that dispatch and
    supervision depend on.  Per pin: output level, "registered callback
    (optional, single-slot)", "interrupt-enabled flag"; per I/O port: whether
    pin-change interrupts of the port are enabled; per timer circuit: "running
    flag", "registered callback"; watchdog: "timeout bucket" (set by [init])
    and "reset-action mode". *)
Record Hardware : Type := {
  gpio_output : Z -> bool;
  gpio_callback : Z -> option Callback;
  pin_interrupt : Z -> bool;
  port_interrupts : Z -> bool;
  timer_running : Timer.Circuit -> bool;
  timer_callback : Timer.Circuit -> option Callback;
  wdt_timeout : option watchdog.Timeout;
  wdt_system_reset : bool
}.

(** Modelled from the spec: the power-on defaults, to which a reset returns
    every device (section 3): nothing registered, nothing enabled, nothing
    running, watchdog not initialised. *)
Definition power_on : Hardware :=
  {| gpio_output := fun _ => false;
     gpio_callback := fun _ => None;
     pin_interrupt := fun _ => false;
     port_interrupts := fun _ => false;
     timer_running := fun _ => false;
     timer_callback := fun _ => None;
     wdt_timeout := None;
     wdt_system_reset := false |}.

Section Dispatch.
Context {F : Floating} {B : Board}.

(** Modelled from the spec: the effect of each driver call on [Hardware]
    (sections 4.1 to 4.3).  [addCallback] is last-registration-wins;
    [enableInterrupt] sets the pin's flag and enables the pin's port, which is
    the [Idle] state of section 4.4 ("port interrupts enabled");
    the two [...OnIoPort] calls act on the whole port of the pin; [start] and
    [stop] set and clear the running flag; [init] selects the timeout and
    [enableSystemReset] commits the reset mode.  The remaining calls do not
    touch this state. *)
Definition hw_cmd (hw : Hardware) (c : Cmd) : Hardware :=
  match c with
  | GPIO_set g =>
      {| gpio_output := set_pin (gpio_output hw) (GPIO.pin g) true;
         gpio_callback := gpio_callback hw;
         pin_interrupt := pin_interrupt hw;
         port_interrupts := port_interrupts hw;
         timer_running := timer_running hw;
         timer_callback := timer_callback hw;
         wdt_timeout := wdt_timeout hw;
         wdt_system_reset := wdt_system_reset hw |}
  | GPIO_addCallback g f =>
      {| gpio_output := gpio_output hw;
         gpio_callback := set_pin (gpio_callback hw) (GPIO.pin g) (Some f);
         pin_interrupt := pin_interrupt hw;
         port_interrupts := port_interrupts hw;
         timer_running := timer_running hw;
         timer_callback := timer_callback hw;
         wdt_timeout := wdt_timeout hw;
         wdt_system_reset := wdt_system_reset hw |}
  | GPIO_enableInterrupt g =>
      {| gpio_output := gpio_output hw;
         gpio_callback := gpio_callback hw;
         pin_interrupt := set_pin (pin_interrupt hw) (GPIO.pin g) true;
         port_interrupts :=
           set_pin (port_interrupts hw) (ioPort (GPIO.pin g)) true;
         timer_running := timer_running hw;
         timer_callback := timer_callback hw;
         wdt_timeout := wdt_timeout hw;
         wdt_system_reset := wdt_system_reset hw |}
  | GPIO_disableInterruptsOnIoPort g =>
      {| gpio_output := gpio_output hw;
         gpio_callback := gpio_callback hw;
         pin_interrupt := pin_interrupt hw;
         port_interrupts :=
           set_pin (port_interrupts hw) (ioPort (GPIO.pin g)) false;
         timer_running := timer_running hw;
         timer_callback := timer_callback hw;
         wdt_timeout := wdt_timeout hw;
         wdt_system_reset := wdt_system_reset hw |}
  | GPIO_enableInterruptsOnIoPort g =>
      {| gpio_output := gpio_output hw;
         gpio_callback := gpio_callback hw;
         pin_interrupt := pin_interrupt hw;
         port_interrupts :=
           set_pin (port_interrupts hw) (ioPort (GPIO.pin g)) true;
         timer_running := timer_running hw;
         timer_callback := timer_callback hw;
         wdt_timeout := wdt_timeout hw;
         wdt_system_reset := wdt_system_reset hw |}
  | Timer_start t =>
      {| gpio_output := gpio_output hw;
         gpio_callback := gpio_callback hw;
         pin_interrupt := pin_interrupt hw;
         port_interrupts := port_interrupts hw;
         timer_running := set_circuit (timer_running hw) (Timer.circuit t) true;
         timer_callback := timer_callback hw;
         wdt_timeout := wdt_timeout hw;
         wdt_system_reset := wdt_system_reset hw |}
  | Timer_stop t =>
      {| gpio_output := gpio_output hw;
         gpio_callback := gpio_callback hw;
         pin_interrupt := pin_interrupt hw;
         port_interrupts := port_interrupts hw;
         timer_running :=
           set_circuit (timer_running hw) (Timer.circuit t) false;
         timer_callback := timer_callback hw;
         wdt_timeout := wdt_timeout hw;
         wdt_system_reset := wdt_system_reset hw |}
  | Timer_addCallback t f =>
      {| gpio_output := gpio_output hw;
         gpio_callback := gpio_callback hw;
         pin_interrupt := pin_interrupt hw;
         port_interrupts := port_interrupts hw;
         timer_running := timer_running hw;
         timer_callback :=
           set_circuit (timer_callback hw) (Timer.circuit t) (Some f);
         wdt_timeout := wdt_timeout hw;
         wdt_system_reset := wdt_system_reset hw |}
  | watchdog_init timeout =>
      {| gpio_output := gpio_output hw;
         gpio_callback := gpio_callback hw;
         pin_interrupt := pin_interrupt hw;
         port_interrupts := port_interrupts hw;
         timer_running := timer_running hw;
         timer_callback := timer_callback hw;
         wdt_timeout := Some timeout;
         wdt_system_reset := wdt_system_reset hw |}
  | watchdog_enableSystemReset =>
      {| gpio_output := gpio_output hw;
         gpio_callback := gpio_callback hw;
         pin_interrupt := pin_interrupt hw;
         port_interrupts := port_interrupts hw;
         timer_running := timer_running hw;
         timer_callback := timer_callback hw;
         wdt_timeout := wdt_timeout hw;
         wdt_system_reset := true |}
  | GPIO_construct _ | Timer_construct _ | adc_init | serial_init
  | serial_printf _ _ | LinReg_construct _ _ _ _ _ | watchdog_reset => hw
  end.

Definition hw_event (hw : Hardware) (e : Event) : Hardware :=
  match e with
  | Called c => hw_cmd hw c
  | ReturnedBool _ _ | ReturnedDouble _ _ => hw
  end.

(** The drivers' state after a history, from power-on. *)
Definition hardware_after (h : list Event) : Hardware :=
  fold_left hw_event h power_on.

(** Modelled from the spec: the watchdog supervises the program when it has
    been initialised with a timeout and committed to system-reset mode
    (section 3, "once armed with system reset mode"). *)
Definition watchdog_armed (hw : Hardware) : Prop :=
  wdt_timeout hw <> None /\ wdt_system_reset hw = true.

(** Interrupt sources: a level change on a pin, the elapse of a timer. *)
Inductive Irq : Type :=
| PinChange (pin : Z)
| TimerElapsed (c : Timer.Circuit).

(** Modelled from the spec: the handler a source dispatches to, if any.  A
    pin change is delivered when the pin's flag is set and the interrupts of
    its port are enabled; a timer's elapse is delivered while the timer runs
    (sections 4.1, 4.2 and 4.4). *)
Definition irq_handler (hw : Hardware) (i : Irq) : option Callback :=
  match i with
  | PinChange p =>
      if pin_interrupt hw p && port_interrupts hw (ioPort p)
      then gpio_callback hw p else None
  | TimerElapsed c =>
      if timer_running hw c then timer_callback hw c else None
  end.

(** The running system: the history so far and what is left of the main
    thread's current function ([setup], then one loop body after another). *)
Record System : Type := {
  history : list Event;
  pc : Prog unit
}.

Definition boot : System :=
  {| history := []; pc := static_initialization ;; setup |}.

Inductive Step : Type :=
| MainStep
| Interrupt (i : Irq).

(** Modelled from the spec: the scheduling model of section 5, one thread of
    normal execution preempted by handlers that "either run to completion or
    are masked".  A main step performs the next driver call of [main]; when
    the current function has returned it begins the next iteration of
    [while (1)].  An interrupt step runs the dispatched handler to completion
    between two calls of the main thread; a source without a dispatchable
    handler cannot step. *)
Definition step (w : World) (l : Step) (s : System) : option System :=
  match l with
  | MainStep =>
      match pc s with
      | Ret _ => Some {| history := history s; pc := loop_body |}
      | Do c k => Some {| history := history s ++ [Called c]; pc := k |}
      | AskBool q k =>
          let r := answer_bool w (history s) q in
          Some {| history := history s ++ [ReturnedBool q r]; pc := k r |}
      | AskDouble q k =>
          let r := answer_double w (history s) q in
          Some {| history := history s ++ [ReturnedDouble q r]; pc := k r |}
      end
  | Interrupt i =>
      match irq_handler (hardware_after (history s)) i with
      | Some f =>
          Some {| history :=
                    history s ++ trace w (history s) (callback_body f);
                  pc := pc s |}
      | None => None
      end
  end.

Fixpoint steps (w : World) (ls : list Step) (s : System) : option System :=
  match ls with
  | [] => Some s
  | l :: rest =>
      match step w l s with
      | Some s' => steps w rest s'
      | None => None
      end
  end.

Definition button_irq : Step :=
  Interrupt (PinChange (GPIO.pin predictionButton)).
Definition debounce_irq : Step :=
  Interrupt (TimerElapsed (Timer.circuit debounceTimer)).

(** The interrupts of the button's port are enabled. *)
Definition button_port_enabled (hw : Hardware) : bool :=
  port_interrupts hw (ioPort (GPIO.pin predictionButton)).

End Dispatch.

(** ** Vocabulary of the properties *)

Section Predicates.
Context {F : Floating} {B : Board}.

(** The events [setup] ends with after a successful training. *)
Definition setup_epilogue : list Event :=
  [Called (GPIO_addCallback predictionButton fn_buttonCallback);
   Called (Timer_addCallback debounceTimer fn_debounceTimerCallback);
   Called (Timer_addCallback predictionTimer fn_predictionTimerCallback);
   Called (GPIO_enableInterrupt predictionButton);
   Called (watchdog_init watchdog.Timeout1024ms);
   Called watchdog_enableSystemReset].

(** The events [setup] begins with. *)
Definition setup_prologue : list Event :=
  [Called adc_init;
   Called serial_init;
   Called (LinReg_construct (double_lit 0) (double_lit 0)
             trainingInput treiningOutput (double_lit (1 # 10)))].

(** The events of [setup] when training fails. *)
Definition setup_failure_trace : list Event :=
  setup_prologue ++
  [ReturnedBool (LinReg_train 100) false;
   Called (GPIO_set errorLed);
   Called (serial_printf ("Training failed!" ++ newline) [])].

(** The training call. *)
Definition is_training (e : Event) : bool :=
  match e with
  | ReturnedBool (LinReg_train _) _ => true
  | _ => false
  end.

(** Calls of [Timer::start] and of [enableInterruptsOnIoPort]. *)
Definition is_timer_start (e : Event) : bool :=
  match e with
  | Called (Timer_start _) => true
  | _ => false
  end.

Definition is_port_enable (e : Event) : bool :=
  match e with
  | Called (GPIO_enableInterruptsOnIoPort _) => true
  | _ => false
  end.

(** Calls that leave interrupt delivery as it is. *)
Definition quiet (c : Cmd) : bool :=
  match c with
  | GPIO_enableInterrupt _ | GPIO_enableInterruptsOnIoPort _
  | GPIO_disableInterruptsOnIoPort _ | GPIO_addCallback _ _
  | Timer_start _ | Timer_stop _ => false
  | _ => true
  end.

Definition is_watchdog_cmd (c : Cmd) : bool :=
  match c with
  | watchdog_init _ | watchdog_enableSystemReset | watchdog_reset => true
  | _ => false
  end.

Definition is_printf (c : Cmd) : bool :=
  match c with
  | serial_printf _ _ => true
  | _ => false
  end.

(** Calls that leave interrupt delivery and the watchdog as they are. *)
Definition inert (c : Cmd) : bool :=
  quiet c &&
  match c with
  | watchdog_init _ | watchdog_enableSystemReset => false
  | _ => true
  end.

Definition inert_event (e : Event) : bool :=
  match e with
  | Called c => inert c
  | _ => true
  end.

(** Every call [p] can make, whatever the drivers return, satisfies [P]. *)
Fixpoint only_calls {A : Type} (P : Cmd -> bool) (p : Prog A) : Prop :=
  match p with
  | Ret _ => True
  | Do c k => P c = true /\ only_calls P k
  | AskBool _ k => forall r, only_calls P (k r)
  | AskDouble _ k => forall r, only_calls P (k r)
  end.

(** [p] is a piece of the main thread in which no interrupt has been enabled
    yet: up to the first [enableInterrupt] it makes quiet calls and registers
    [buttonCallback] on the button; [enableInterrupt] is called on the button,
    with [buttonCallback] registered, and only watchdog calls follow it. *)
Fixpoint before_enable (registered : bool) (p : Prog unit) : Prop :=
  match p with
  | Ret _ => True
  | Do c k =>
      match c with
      | GPIO_enableInterrupt g =>
          g = predictionButton /\ registered = true /\
          only_calls is_watchdog_cmd k
      | GPIO_addCallback g f =>
          g = predictionButton /\ f = fn_buttonCallback /\
          before_enable true k
      | _ => quiet c = true /\ before_enable registered k
      end
  | AskBool _ k => forall r, before_enable registered (k r)
  | AskDouble _ k => forall r, before_enable registered (k r)
  end.

(** No interrupt can be delivered. *)
Definition quiescent (hw : Hardware) : Prop :=
  (forall p, pin_interrupt hw p = false) /\
  (forall c, timer_running hw c = false).

(** Interrupts have been enabled by [setup]. *)
Record dispatching (hw : Hardware) : Prop := {
  button_handler :
    gpio_callback hw (GPIO.pin predictionButton) = Some fn_buttonCallback;
  only_button :
    forall p, pin_interrupt hw p = true -> p = GPIO.pin predictionButton;
  prediction_stopped :
    timer_running hw (Timer.circuit predictionTimer) = false;
  settling_masked :
    timer_running hw (Timer.circuit debounceTimer) = true ->
    button_port_enabled hw = false
}.

Inductive phase (s : System) : Prop :=
| Starting (registered : bool) :
    quiescent (hardware_after (history s)) ->
    before_enable registered (pc s) ->
    (registered = true ->
     gpio_callback (hardware_after (history s)) (GPIO.pin predictionButton) =
     Some fn_buttonCallback) ->
    phase s
| Running :
    dispatching (hardware_after (history s)) ->
    only_calls is_watchdog_cmd (pc s) ->
    phase s.

(** The [Settling] state of the handshake, in the running system. *)
Definition settling (s : System) : Prop :=
  dispatching (hardware_after (history s)) /\
  only_calls is_watchdog_cmd (pc s) /\
  timer_running (hardware_after (history s)) (Timer.circuit debounceTimer) =
  true.

(** The watchdog has not been touched and no interrupt can be delivered, now
    or after anything the main thread's current function still does. *)
Definition unsupervised (w : World) (s : System) : Prop :=
  quiescent (hardware_after (history s)) /\
  wdt_timeout (hardware_after (history s)) = None /\
  wdt_system_reset (hardware_after (history s)) = false /\
  Forall (fun e => inert_event e = true) (trace w (history s) (pc s)).

End Predicates.

(** ** Control states of the program

    The places the main thread can be in, with what the drivers' state and
    the history are known to be there. *)

Section Stages.
Context {F : Floating} {B : Board}.

Definition is_reset (c : Cmd) : bool :=
  match c with
  | watchdog_reset => true
  | _ => false
  end.

Definition printf_or_reset (c : Cmd) : bool :=
  is_printf c || is_reset c.

(** The end of [setup], after [enableInterrupt]. *)
Definition arming : Prog unit :=
  call (watchdog_init watchdog.Timeout1024ms) ;;
  call watchdog_enableSystemReset.

Definition committing : Prog unit :=
  call watchdog_enableSystemReset.

(** [p] is a piece of the static construction and of [setup] up to the point
    where [setup] either enables the button's interrupt or sets the error
    LED.  [trained] is what [train] has returned, if it has been called;
    [button] and [debounce] tell whether the handlers of the button and of
    the debounce timer have been registered. *)
Fixpoint configuring (trained : option bool) (button debounce : bool)
  (p : Prog unit) : Prop :=
  match p with
  | Ret _ => False
  | Do c k =>
      match c with
      | GPIO_construct _ | Timer_construct _ | adc_init | serial_init
      | serial_printf _ _ | LinReg_construct _ _ _ _ _ =>
          configuring trained button debounce k
      | GPIO_addCallback g f =>
          g = predictionButton /\ f = fn_buttonCallback /\
          configuring trained true debounce k
      | Timer_addCallback t f =>
          (t = debounceTimer /\ f = fn_debounceTimerCallback /\
           configuring trained button true k) \/
          (t = predictionTimer /\ f = fn_predictionTimerCallback /\
           configuring trained button debounce k)
      | GPIO_enableInterrupt g =>
          g = predictionButton /\ trained = Some true /\
          button = true /\ debounce = true /\ k = arming
      | GPIO_set g =>
          g = errorLed /\ trained = Some false /\
          only_calls printf_or_reset k
      | _ => False
      end
  | AskBool q k =>
      match q with
      | LinReg_train epochs =>
          epochs = 100 /\ trained = None /\
          forall r, configuring (Some r) button debounce (k r)
      | GPIO_read _ => False
      end
  | AskDouble _ k => forall r, configuring trained button debounce (k r)
  end.

(** The watchdog's view of a history: the calls made to it, in order. *)
Definition watchdog_log (h : list Event) : list Event :=
  filter touches_watchdog h.

(** The drivers' state once [setup] has enabled the button's interrupt. *)
Record enabled_state (hw : Hardware) : Prop := {
  en_dispatching : dispatching hw;
  en_button : pin_interrupt hw (GPIO.pin predictionButton) = true;
  en_debounce_handler :
    timer_callback hw (Timer.circuit debounceTimer) =
    Some fn_debounceTimerCallback;
  en_two_state :
    button_port_enabled hw =
    negb (timer_running hw (Timer.circuit debounceTimer));
  en_led_off : gpio_output hw (GPIO.pin errorLed) = false
}.

Inductive stage (s : System) : Prop :=
| Configuring (trained : option bool) (button debounce : bool) :
    quiescent (hardware_after (history s)) ->
    wdt_timeout (hardware_after (history s)) = None ->
    wdt_system_reset (hardware_after (history s)) = false ->
    gpio_output (hardware_after (history s)) (GPIO.pin errorLed) = false ->
    watchdog_log (history s) = [] ->
    configuring trained button debounce (pc s) ->
    (forall r, trained = Some r ->
       In (ReturnedBool (LinReg_train 100) r) (history s)) ->
    (button = true ->
     gpio_callback (hardware_after (history s)) (GPIO.pin predictionButton) =
     Some fn_buttonCallback) ->
    (debounce = true ->
     timer_callback (hardware_after (history s))
       (Timer.circuit debounceTimer) = Some fn_debounceTimerCallback) ->
    stage s
| Degraded (n : nat) :
    quiescent (hardware_after (history s)) ->
    wdt_timeout (hardware_after (history s)) = None ->
    wdt_system_reset (hardware_after (history s)) = false ->
    gpio_output (hardware_after (history s)) (GPIO.pin errorLed) = true ->
    In (ReturnedBool (LinReg_train 100) false) (history s) ->
    watchdog_log (history s) = repeat (Called watchdog_reset) n ->
    only_calls printf_or_reset (pc s) ->
    stage s
| Arming :
    enabled_state (hardware_after (history s)) ->
    In (ReturnedBool (LinReg_train 100) true) (history s) ->
    wdt_timeout (hardware_after (history s)) = None ->
    wdt_system_reset (hardware_after (history s)) = false ->
    watchdog_log (history s) = [] ->
    pc s = arming ->
    stage s
| Committing :
    enabled_state (hardware_after (history s)) ->
    In (ReturnedBool (LinReg_train 100) true) (history s) ->
    wdt_timeout (hardware_after (history s)) = Some watchdog.Timeout1024ms ->
    wdt_system_reset (hardware_after (history s)) = false ->
    watchdog_log (history s) =
      [Called (watchdog_init watchdog.Timeout1024ms)] ->
    pc s = committing ->
    stage s
| Supervised (n : nat) :
    enabled_state (hardware_after (history s)) ->
    In (ReturnedBool (LinReg_train 100) true) (history s) ->
    wdt_timeout (hardware_after (history s)) = Some watchdog.Timeout1024ms ->
    wdt_system_reset (hardware_after (history s)) = true ->
    watchdog_log (history s) =
      [Called (watchdog_init watchdog.Timeout1024ms);
       Called watchdog_enableSystemReset] ++
      repeat (Called watchdog_reset) n ->
    (pc s = Ret tt \/ pc s = loop_body) ->
    stage s.

(** Every event [p] can produce, whatever the drivers return, satisfies
    [P]. *)
Fixpoint emits {A : Type} (P : Event -> bool) (p : Prog A) : Prop :=
  match p with
  | Ret _ => True
  | Do c k => P (Called c) = true /\ emits P k
  | AskBool q k => forall r, P (ReturnedBool q r) = true /\ emits P (k r)
  | AskDouble q k => forall r, P (ReturnedDouble q r) = true /\ emits P (k r)
  end.

(** [p] returns after at most [n] driver calls, whatever the drivers
    return. *)
Fixpoint finishes_within {A : Type} (n : nat) (p : Prog A) {struct p}
  : Prop :=
  match p with
  | Ret _ => True
  | Do _ k =>
      match n with
      | O => False
      | S m => finishes_within m k
      end
  | AskBool _ k =>
      match n with
      | O => False
      | S m => forall r, finishes_within m (k r)
      end
  | AskDouble _ k =>
      match n with
      | O => False
      | S m => forall r, finishes_within m (k r)
      end
  end.

(** The number of steps of the main thread in a run. *)
Fixpoint main_steps (ls : list Step) : nat :=
  match ls with
  | [] => O
  | MainStep :: rest => S (main_steps rest)
  | Interrupt _ :: rest => main_steps rest
  end.

(** The main thread is at most [k] of its steps away from having serviced
    the watchdog: it has done so, or it is in a function that returns after
    at most [k - 2] calls, or it is at the head of the loop body. *)
Definition reset_within (k : nat) (s : System) : Prop :=
  In (Called watchdog_reset) (history s) \/
  (exists n, (n + 2 <= k)%nat /\ finishes_within n (pc s)) \/
  ((1 <= k)%nat /\ pc s = loop_body).

(** Calls of [watchdog::reset()]. *)
Definition is_reset_call (e : Event) : bool :=
  match e with
  | Called watchdog_reset => true
  | _ => false
  end.

(** Reads of the ADC. *)
Definition is_adc_read (e : Event) : bool :=
  match e with
  | ReturnedDouble (adc_getDutyCycle _) _ => true
  | _ => false
  end.

(** The integer [setup] prints for a prediction: [test] is the value
    compared with zero, [value] the value that is shifted by a half and
    cast. *)
Definition rounded (test value : double) : Z :=
  if double_ltb test (double_lit 0)
  then static_cast_int (double_sub value (double_lit (1 # 2)))
  else static_cast_int (double_add value (double_lit (1 # 2))).

(** The events of one round of the printing loop of [setup] for input [x],
    when the two [predict] calls return [p1] and [p2]. *)
Definition printout_round (x p1 p2 : double) : list Event :=
  [ReturnedDouble (LinReg_predict x) p1;
   ReturnedDouble (LinReg_predict x) p2;
   Called (serial_printf "%d " [rounded p1 p2])].

Definition printout_rounds (xs : list double) (ps : list (double * double))
  : list Event :=
  flat_map
    (fun xp => printout_round (fst xp) (fst (snd xp)) (snd (snd xp)))
    (combine xs ps).

End Stages.

(** ** A concrete platform and concrete worlds, for closed examples *)

(** Exact rational arithmetic in place of [double]; [static_cast<int>]
    truncates toward zero. *)
Definition rational_floating : Floating :=
  {| double := Q;
     double_lit := fun q => q;
     double_ltb := fun a b => negb (Qle_bool b a);
     double_add := Qplus;
     double_sub := Qminus;
     double_mul := Qmult;
     static_cast_int := fun q => Z.quot (Qnum q) (Z.pos (Qden q)) |}.

(** Eight pins per port. *)
Definition eight_pin_ports : Board :=
  {| ioPort := fun p => p / 8 |}.

(** A world in which [train] returns [trained], every [read] returns
    [level], [predict] returns the line through the training data and the
    ADC reads half scale. *)
Definition fixed_world (trained level : bool) : @World rational_floating :=
  {| answer_bool := fun _ (q : BoolQuery) =>
       match q with
       | LinReg_train _ => trained
       | GPIO_read _ => level
       end;
     answer_double := fun _ (q : @DoubleQuery rational_floating) =>
       match q with
       | LinReg_predict x => Qred (100 * (x : Q) - 50)%Q
       | adc_getDutyCycle _ => (1 # 2)%Q
       end |}.

(** A run in which training succeeds, [setup] completes, the loop services
    the watchdog, the button is pressed and the debounce timer elapses. *)
Definition supervised_run : list Step :=
  repeat MainStep 50 ++ [button_irq; MainStep; debounce_irq; MainStep].

(** A run in which training fails and the loop goes on. *)
Definition degraded_run : list Step := repeat MainStep 20.

(** The run that ends right after [setup] has enabled the button's
    interrupt, when training succeeds. *)
Definition enabling_run : list Step := repeat MainStep 45.

(** * Properties *)

Section Traces.
Context {F : Floating}.

(** ** Sequencing *)

Lemma run_bind {A B : Type} (w : World) (p : Prog A) (f : A -> Prog B) :
  forall h,
    run w h (bind p f) =
    (fst (run w (h ++ snd (run w h p)) (f (fst (run w h p)))),
     snd (run w h p) ++
     snd (run w (h ++ snd (run w h p)) (f (fst (run w h p))))).
Proof.
  induction p as [a | c k IH | q k IH | q k IH]; intros h; simpl.
  - rewrite app_nil_r. destruct (run w h (f a)); reflexivity.
  - rewrite IH. destruct (run w (h ++ [Called c]) k) as [a t]; simpl.
    rewrite <- app_assoc. reflexivity.
  - rewrite IH.
    destruct (run w (h ++ [ReturnedBool q (answer_bool w h q)])
                (k (answer_bool w h q))) as [a t]; simpl.
    rewrite <- app_assoc. reflexivity.
  - rewrite IH.
    destruct (run w (h ++ [ReturnedDouble q (answer_double w h q)])
                (k (answer_double w h q))) as [a t]; simpl.
    rewrite <- app_assoc. reflexivity.
Qed.

Lemma trace_bind {A B : Type} (w : World) (h : list Event)
  (p : Prog A) (f : A -> Prog B) :
  trace w h (bind p f) =
  trace w h p ++ trace w (h ++ trace w h p) (f (fst (run w h p))).
Proof. unfold trace. rewrite run_bind. reflexivity. Qed.

Lemma trace_seq {B : Type} (w : World) (h : list Event)
  (p : Prog unit) (q : Prog B) :
  trace w h (p ;; q) = trace w h p ++ trace w (h ++ trace w h p) q.
Proof. apply trace_bind. Qed.

Lemma trace_Do {A : Type} (w : World) (h : list Event) (c : Cmd)
  (k : Prog A) :
  trace w h (Do c k) = Called c :: trace w (h ++ [Called c]) k.
Proof.
  unfold trace. simpl. destruct (run w (h ++ [Called c]) k). reflexivity.
Qed.

Lemma trace_AskBool {A : Type} (w : World) (h : list Event) (q : BoolQuery)
  (k : bool -> Prog A) :
  trace w h (AskBool q k) =
  ReturnedBool q (answer_bool w h q) ::
  trace w (h ++ [ReturnedBool q (answer_bool w h q)]) (k (answer_bool w h q)).
Proof.
  unfold trace. simpl. destruct (run w _ (k _)). reflexivity.
Qed.

Lemma trace_AskDouble {A : Type} (w : World) (h : list Event)
  (q : DoubleQuery) (k : double -> Prog A) :
  trace w h (AskDouble q k) =
  ReturnedDouble q (answer_double w h q) ::
  trace w (h ++ [ReturnedDouble q (answer_double w h q)])
    (k (answer_double w h q)).
Proof.
  unfold trace. simpl. destruct (run w _ (k _)). reflexivity.
Qed.

Lemma trace_iterate_loop_body (w : World) (n : nat) :
  forall h, trace w h (iterate n loop_body) = repeat (Called watchdog_reset) n.
Proof.
  induction n as [| n IH]; intros h.
  - reflexivity.
  - cbn [iterate]. rewrite trace_seq. rewrite IH. reflexivity.
Qed.

Lemma trace_main_upto (w : World) (h : list Event) (n : nat) :
  trace w h (main_upto n) =
  trace w h setup ++ repeat (Called watchdog_reset) n.
Proof.
  unfold main_upto. rewrite trace_seq, trace_iterate_loop_body. reflexivity.
Qed.

(** ** The prediction printout of [setup] *)

Lemma print_prediction_printout (w : World) (h : list Event) (x : double) :
  Forall (fun e => is_printout e = true) (trace w h (print_prediction x)).
Proof.
  unfold trace, print_prediction. simpl.
  destruct (double_ltb _ _); simpl; repeat constructor.
Qed.

Lemma for_each_printout (w : World) (xs : list double) :
  forall h,
    Forall (fun e => is_printout e = true)
      (trace w h (for_each xs print_prediction)).
Proof.
  induction xs as [| x xs IH]; intros h.
  - constructor.
  - cbn [for_each]. rewrite trace_bind. apply Forall_app. split.
    + apply print_prediction_printout.
    + apply IH.
Qed.

Lemma trace_setup_trained (w : World) (h : list Event) :
  exists printout,
    Forall (fun e => is_printout e = true) printout /\
    trace w h setup_trained = printout ++ setup_epilogue.
Proof.
  unfold setup_trained. rewrite trace_seq.
  exists (trace w h (for_each trainingInput print_prediction)). split.
  - apply for_each_printout.
  - reflexivity.
Qed.

(** [setup] has two shapes, chosen by what [train] returns. *)
Lemma trace_setup (w : World) (h : list Event) :
  (answer_bool w (h ++ setup_prologue) (LinReg_train 100) = false /\
   trace w h setup = setup_failure_trace) \/
  (answer_bool w (h ++ setup_prologue) (LinReg_train 100) = true /\
   exists printout,
     Forall (fun e => is_printout e = true) printout /\
     trace w h setup =
     setup_prologue ++ ReturnedBool (LinReg_train 100) true ::
     printout ++ setup_epilogue).
Proof.
  unfold setup. cbn [bind call ask_bool].
  rewrite !trace_Do, trace_AskBool. rewrite <- !app_assoc. cbn [app].
  fold setup_prologue.
  destruct (answer_bool w (h ++ setup_prologue) (LinReg_train 100)) eqn:E;
    cbn [negb].
  - right. split; [reflexivity |].
    match goal with
    | |- context [trace w ?h' setup_trained] =>
        destruct (trace_setup_trained w h') as [printout [Hp Ht]];
        rewrite Ht
    end.
    exists printout. split; [exact Hp | reflexivity].
  - left. split; [reflexivity |]. rewrite !trace_Do. reflexivity.
Qed.

(** What [train] returned in a run of [setup] is read off its trace. *)
Lemma setup_reports (w : World) (h : list Event) (r : bool) :
  In (ReturnedBool (LinReg_train 100) r) (trace w h setup) ->
  answer_bool w (h ++ setup_prologue) (LinReg_train 100) = r.
Proof.
  intros Hin.
  destruct (trace_setup w h) as [[Ha Ht] | [Ha [printout [Hp Ht]]]];
    rewrite Ht in Hin; rewrite Ha.
  - simpl in Hin.
    repeat (destruct Hin as [Hin | Hin]; [try discriminate Hin |]);
      try contradiction.
    injection Hin as <-. reflexivity.
  - unfold setup_prologue in Hin. simpl in Hin.
    repeat (destruct Hin as [Hin | Hin]; [try discriminate Hin |]).
    + injection Hin as <-. reflexivity.
    + apply in_app_or in Hin. destruct Hin as [Hin | Hin].
      * rewrite Forall_forall in Hp. apply Hp in Hin. discriminate Hin.
      * simpl in Hin.
        repeat (destruct Hin as [Hin | Hin]; [try discriminate Hin |]);
          contradiction.
Qed.

(** Conversely, [setup] always calls [train(100)], once the prologue is
    done. *)
Lemma setup_trains (w : World) (h : list Event) (r : bool) :
  answer_bool w (h ++ setup_prologue) (LinReg_train 100) = r ->
  In (ReturnedBool (LinReg_train 100) r) (trace w h setup).
Proof.
  intros Hr.
  destruct (trace_setup w h) as [[Ha Ht] | [Ha [printout [_ Ht]]]];
    rewrite Ht; rewrite Ha in Hr; subst r.
  - right. right. right. left. reflexivity.
  - apply in_or_app. right. left. reflexivity.
Qed.

Lemma buttonCallback_trace_shape (w : World) (h : list Event) :
  trace w h buttonCallback =
  [Called (GPIO_disableInterruptsOnIoPort predictionButton);
   Called (Timer_start debounceTimer);
   ReturnedBool (GPIO_read predictionButton)
     (answer_bool w
        (h ++ [Called (GPIO_disableInterruptsOnIoPort predictionButton);
               Called (Timer_start debounceTimer)])
        (GPIO_read predictionButton))].
Proof.
  unfold buttonCallback. cbn [bind call ask_bool].
  rewrite !trace_Do, trace_AskBool. rewrite <- !app_assoc. cbn [app].
  destruct (answer_bool w _ (GPIO_read predictionButton)); reflexivity.
Qed.

End Traces.

Section CallOrder.
Context {F : Floating}.

(** ** The main loop *)

(** C1: every iteration of the main loop after [setup] calls
    [watchdog::reset()] and does nothing else.  In every world and after every
    history the loop body returns after exactly one event, the call of
    [watchdog::reset()]; and after [n] iterations [main] has added exactly [n]
    such calls to what [setup] did. *)
Theorem main_loop_services_watchdog (w : World) (h : list Event) :
  run w h loop_body = (tt, [Called watchdog_reset]) /\
  forall n : nat,
    trace w h (main_upto n) =
    trace w h setup ++ repeat (Called watchdog_reset) n.
Proof.
  split.
  - reflexivity.
  - intros n. apply trace_main_upto.
Qed.

(** ** The callbacks *)

(** C2: every invocation of [buttonCallback] first disables the interrupts
    of the button's I/O port, then starts the debounce timer, then reads the
    button's pin; the level read is the last event. *)
Theorem buttonCallback_order (w : World) (h : list Event) :
  trace w h buttonCallback =
  [Called (GPIO_disableInterruptsOnIoPort predictionButton);
   Called (Timer_start debounceTimer);
   ReturnedBool (GPIO_read predictionButton)
     (answer_bool w
        (h ++ [Called (GPIO_disableInterruptsOnIoPort predictionButton);
               Called (Timer_start debounceTimer)])
        (GPIO_read predictionButton))].
Proof. apply buttonCallback_trace_shape. Qed.

(** C3: every invocation of [debounceTimerCallback] stops the debounce timer,
    then enables the interrupts of the button's I/O port, and returns. *)
Theorem debounceTimerCallback_effects (w : World) (h : list Event) :
  run w h debounceTimerCallback =
  (tt, [Called (Timer_stop debounceTimer);
        Called (GPIO_enableInterruptsOnIoPort predictionButton)]).
Proof. reflexivity. Qed.

(** C4, as the code has it: [predictionTimerCallback] returns without a single
    driver call, so no prediction is triggered by the 60 s timer. *)
Theorem predictionTimerCallback_does_nothing (w : World) (h : list Event) :
  run w h predictionTimerCallback = (tt, []) /\
  trace w h (callback_body fn_predictionTimerCallback) = [].
Proof. split; reflexivity. Qed.

(** C5, as the code has it: when the pin reads as pressed, [buttonCallback]
    ends right after the read; nothing is dispatched for the press. *)
Theorem buttonCallback_press_dispatches_nothing (w : World) (h : list Event) :
  answer_bool w
    (h ++ [Called (GPIO_disableInterruptsOnIoPort predictionButton);
           Called (Timer_start debounceTimer)])
    (GPIO_read predictionButton) = true ->
  run w h buttonCallback =
  (tt, [Called (GPIO_disableInterruptsOnIoPort predictionButton);
        Called (Timer_start debounceTimer);
        ReturnedBool (GPIO_read predictionButton) true]).
Proof.
  intros Hpress.
  pose proof (buttonCallback_trace_shape w h) as Ht. rewrite Hpress in Ht.
  unfold trace in Ht. destruct (run w h buttonCallback) as [[] t].
  simpl in Ht. rewrite Ht. reflexivity.
Qed.

End CallOrder.

Section Setup.
Context {F : Floating}.

(** If nothing in [front] satisfies [p] and nothing in [back] satisfies [q],
    then in [front ++ back] nothing from a [p]-event on satisfies [q]. *)
Lemma nothing_after (p q : Event -> bool) (front back : list Event) :
  (forall e, In e front -> p e = false) ->
  (forall e, In e back -> q e = false) ->
  forall t1 e t2,
    front ++ back = t1 ++ e :: t2 -> p e = true ->
    forall r, In r (e :: t2) -> q r = false.
Proof.
  intros Hfront Hback t1 e t2 Heq Hp r Hr.
  apply app_eq_app in Heq. destruct Heq as [l [[H1 H2] | [H1 H2]]].
  - (* the split point lies in [front], or at the seam *)
    destruct l as [| e' l'].
    + simpl in H2. apply Hback. rewrite <- H2. exact Hr.
    + injection H2 as He _. subst e'.
      rewrite (Hfront e) in Hp; [discriminate Hp |].
      rewrite H1. apply in_or_app. right. left. reflexivity.
  - (* the split point lies in [back] *)
    apply Hback. rewrite H2. apply in_or_app. right. exact Hr.
Qed.

Lemma printout_neutral (printout : list Event) :
  Forall (fun e => is_printout e = true) printout ->
  forall e, In e printout ->
    registers_callback e = false /\ enables_interrupt e = false /\
    touches_watchdog e = false /\ is_training e = false.
Proof.
  intros Hp e He. rewrite Forall_forall in Hp. specialize (Hp e He).
  destruct e as [c | q r | q r]; try discriminate Hp.
  - destruct c; try discriminate Hp. repeat split.
  - destruct q; try discriminate Hp. repeat split.
Qed.

(** ** Training failure *)

(** C6: if the training call of [setup] reports failure, [setup] sets the
    error LED, prints the diagnostic and returns: its whole trace is the
    prologue, the failed [train(100)], [errorLed.set()] and the [printf].  No
    callback is registered, no interrupt is enabled, the watchdog is not
    touched, and [train] is called once. *)
Theorem setup_aborts_on_training_failure (w : World) (h : list Event) :
  In (ReturnedBool (LinReg_train 100) false) (trace w h setup) ->
  trace w h setup =
    [Called adc_init;
     Called serial_init;
     Called (LinReg_construct (double_lit 0) (double_lit 0)
               trainingInput treiningOutput (double_lit (1 # 10)));
     ReturnedBool (LinReg_train 100) false;
     Called (GPIO_set errorLed);
     Called (serial_printf ("Training failed!" ++ newline) [])] /\
  (forall e, In e (trace w h setup) ->
     registers_callback e = false /\ enables_interrupt e = false /\
     touches_watchdog e = false) /\
  List.length (filter is_training (trace w h setup)) = 1%nat.
Proof.
  intros Hfail. apply setup_reports in Hfail.
  destruct (trace_setup w h) as [[_ Ht] | [Ha _]];
    [| rewrite Ha in Hfail; discriminate Hfail].
  rewrite Ht. split; [reflexivity |]. split; [| reflexivity].
  intros e He. simpl in He.
  repeat (destruct He as [He | He]; [subst e; repeat split |]).
  contradiction.
Qed.

(** ** Successful setup *)

(** C7: in a run of [setup] whose training succeeds, [addCallback] on the
    button precedes the one [enableInterrupt] on it, and no interrupt is
    enabled before that; and in every run of [setup], from any
    interrupt-enabling call on, no callback is registered any more. *)
Theorem callbacks_registered_before_interrupts_enabled
  (w : World) (h : list Event) :
  (In (ReturnedBool (LinReg_train 100) true) (trace w h setup) ->
   exists t1 t2,
     trace w h setup =
       t1 ++ Called (GPIO_enableInterrupt predictionButton) :: t2 /\
     In (Called (GPIO_addCallback predictionButton fn_buttonCallback)) t1 /\
     (forall e, In e t1 -> enables_interrupt e = false) /\
     (forall e, In e t2 -> enables_interrupt e = false)) /\
  (forall t1 e t2,
     trace w h setup = t1 ++ e :: t2 -> enables_interrupt e = true ->
     forall r, In r (e :: t2) -> registers_callback r = false).
Proof.
  destruct (trace_setup w h) as [[Ha Ht] | [Ha [printout [Hp Ht]]]].
  - (* training failed *)
    split.
    + intros Hok. apply setup_reports in Hok. rewrite Ha in Hok.
      discriminate Hok.
    + rewrite Ht. intros t1 e t2 Heq.
      rewrite <- (app_nil_r setup_failure_trace) in Heq. revert t1 e t2 Heq.
      apply nothing_after.
      * intros e He. simpl in He.
        repeat (destruct He as [He | He]; [subst e; reflexivity |]).
        contradiction.
      * intros e [].
  - (* training succeeded *)
    pose proof (printout_neutral printout Hp) as Hn.
    assert (Hshape :
      trace w h setup =
      (setup_prologue ++ ReturnedBool (LinReg_train 100) true :: printout ++
       [Called (GPIO_addCallback predictionButton fn_buttonCallback);
        Called (Timer_addCallback debounceTimer fn_debounceTimerCallback);
        Called (Timer_addCallback predictionTimer fn_predictionTimerCallback)])
      ++ [Called (GPIO_enableInterrupt predictionButton);
          Called (watchdog_init watchdog.Timeout1024ms);
          Called watchdog_enableSystemReset]).
    { rewrite Ht. unfold setup_epilogue, setup_prologue.
      cbn [app]. rewrite <- !app_assoc. reflexivity. }
    assert (Hfront : forall e,
      In e (setup_prologue ++ ReturnedBool (LinReg_train 100) true ::
            printout ++
            [Called (GPIO_addCallback predictionButton fn_buttonCallback);
             Called (Timer_addCallback debounceTimer fn_debounceTimerCallback);
             Called (Timer_addCallback predictionTimer
                       fn_predictionTimerCallback)]) ->
      enables_interrupt e = false).
    { intros e He. unfold setup_prologue in He. simpl in He.
      repeat (destruct He as [He | He]; [subst e; reflexivity |]).
      apply in_app_or in He. destruct He as [He | He].
      - apply Hn, He.
      - simpl in He.
        repeat (destruct He as [He | He]; [subst e; reflexivity |]).
        contradiction. }
    split.
    + intros _. eexists. eexists. split; [exact Hshape |]. split.
      * apply in_or_app. right. right. apply in_or_app. right. left.
        reflexivity.
      * split; [exact Hfront |]. intros e He. simpl in He.
        repeat (destruct He as [He | He]; [subst e; reflexivity |]).
        contradiction.
    + rewrite Hshape. apply nothing_after.
      * exact Hfront.
      * intros e He. simpl in He.
        repeat (destruct He as [He | He]; [subst e; reflexivity |]).
        contradiction.
Qed.

(** C9: in a run of [setup] whose training succeeds, the last two events are
    [watchdog::init(Timeout1024ms)], whose bucket is 1024 ms, and then
    [watchdog::enableSystemReset()]; nothing before them touches the watchdog,
    so [init] is called exactly once; and the calls of [watchdog::reset()] of
    the main loop all come after them. *)
Theorem watchdog_initialised_once_then_committed
  (w : World) (h : list Event) :
  In (ReturnedBool (LinReg_train 100) true) (trace w h setup) ->
  exists before,
    trace w h setup =
      before ++ [Called (watchdog_init watchdog.Timeout1024ms);
                 Called watchdog_enableSystemReset] /\
    (forall e, In e before -> touches_watchdog e = false) /\
    List.length (filter is_watchdog_init (trace w h setup)) = 1%nat /\
    watchdog.milliseconds watchdog.Timeout1024ms = 1024 /\
    forall n : nat,
      trace w h (main_upto n) =
        before ++ [Called (watchdog_init watchdog.Timeout1024ms);
                   Called watchdog_enableSystemReset]
               ++ repeat (Called watchdog_reset) n.
Proof.
  intros Hok. apply setup_reports in Hok.
  destruct (trace_setup w h) as [[Ha _] | [_ [printout [Hp Ht]]]];
    [rewrite Ha in Hok; discriminate Hok |].
  pose proof (printout_neutral printout Hp) as Hn.
  exists (setup_prologue ++ ReturnedBool (LinReg_train 100) true ::
          printout ++
          [Called (GPIO_addCallback predictionButton fn_buttonCallback);
           Called (Timer_addCallback debounceTimer fn_debounceTimerCallback);
           Called (Timer_addCallback predictionTimer
                     fn_predictionTimerCallback);
           Called (GPIO_enableInterrupt predictionButton)]).
  assert (Hshape :
    trace w h setup =
    (setup_prologue ++ ReturnedBool (LinReg_train 100) true :: printout ++
     [Called (GPIO_addCallback predictionButton fn_buttonCallback);
      Called (Timer_addCallback debounceTimer fn_debounceTimerCallback);
      Called (Timer_addCallback predictionTimer fn_predictionTimerCallback);
      Called (GPIO_enableInterrupt predictionButton)])
    ++ [Called (watchdog_init watchdog.Timeout1024ms);
        Called watchdog_enableSystemReset]).
  { rewrite Ht. unfold setup_epilogue, setup_prologue.
    cbn [app]. rewrite <- !app_assoc. reflexivity. }
  assert (Hbefore : forall e,
    In e (setup_prologue ++ ReturnedBool (LinReg_train 100) true ::
          printout ++
          [Called (GPIO_addCallback predictionButton fn_buttonCallback);
           Called (Timer_addCallback debounceTimer fn_debounceTimerCallback);
           Called (Timer_addCallback predictionTimer
                     fn_predictionTimerCallback);
           Called (GPIO_enableInterrupt predictionButton)]) ->
    touches_watchdog e = false).
  { intros e He. unfold setup_prologue in He. simpl in He.
    repeat (destruct He as [He | He]; [subst e; reflexivity |]).
    apply in_app_or in He. destruct He as [He | He].
    - apply Hn, He.
    - simpl in He.
      repeat (destruct He as [He | He]; [subst e; reflexivity |]).
      contradiction. }
  split; [exact Hshape |]. split; [exact Hbefore |]. split; [| split].
  - rewrite Hshape, filter_app. cbn [filter is_watchdog_init app].
    rewrite length_app. cbn [List.length].
    assert (Hnone : forall l : list Event,
      (forall e, In e l -> touches_watchdog e = false) ->
      filter is_watchdog_init l = []).
    { induction l as [| e l IH]; intros Hl; [reflexivity |].
      cbn [filter].
      assert (He : touches_watchdog e = false) by (apply Hl; left; reflexivity).
      destruct e as [c | |];
        try (apply IH; intros; apply Hl; right; assumption).
      destruct c; try discriminate He;
        apply IH; intros; apply Hl; right; assumption. }
    rewrite (Hnone _ Hbefore). reflexivity.
  - reflexivity.
  - intros n. rewrite trace_main_upto, Hshape, <- app_assoc. reflexivity.
Qed.

End Setup.

(** ** Phases of the main thread *)

Section Phases.
Context {F : Floating}.

Lemma before_enable_bind_printf {A : Type} (registered : bool)
  (p : Prog A) (f : A -> Prog unit) :
  only_calls is_printf p ->
  (forall a, before_enable registered (f a)) ->
  before_enable registered (bind p f).
Proof.
  intros Hp Hf.
  induction p as [a | c k IH | q k IH | q k IH]; simpl in *.
  - apply Hf.
  - destruct Hp as [Hc Hk]. destruct c; try discriminate Hc.
    split; [reflexivity | apply IH, Hk].
  - intros r. apply IH, Hp.
  - intros r. apply IH, Hp.
Qed.

Lemma only_calls_bind {A B : Type} (P : Cmd -> bool)
  (p : Prog A) (f : A -> Prog B) :
  only_calls P p -> (forall a, only_calls P (f a)) ->
  only_calls P (bind p f).
Proof.
  intros Hp Hf.
  induction p as [a | c k IH | q k IH | q k IH]; simpl in *.
  - apply Hf.
  - destruct Hp as [Hc Hk]. split; [exact Hc | apply IH, Hk].
  - intros r. apply IH, Hp.
  - intros r. apply IH, Hp.
Qed.

Lemma print_prediction_only_printf (x : double) :
  only_calls is_printf (print_prediction x).
Proof.
  unfold print_prediction. simpl. intros p.
  destruct (double_ltb p (double_lit 0)); simpl; intros p'; split;
    trivial.
Qed.

Lemma for_each_only_printf (xs : list double) :
  only_calls is_printf (for_each xs print_prediction).
Proof.
  induction xs as [| x xs IH]; cbn [for_each].
  - exact I.
  - apply (only_calls_bind is_printf (print_prediction x)
             (fun _ => for_each xs print_prediction)).
    + apply print_prediction_only_printf.
    + intros _. exact IH.
Qed.

Lemma boot_before_enable :
  before_enable false (static_initialization ;; setup).
Proof.
  simpl. repeat (split; [reflexivity |]).
  intros trained. destruct trained; simpl.
  - unfold setup_trained.
    apply (before_enable_bind_printf false
             (for_each trainingInput print_prediction)).
    + apply for_each_only_printf.
    + intros _. simpl. repeat (split; try reflexivity).
  - repeat (split; try reflexivity).
Qed.

End Phases.

(** ** The debounce handshake in the running system *)

Section Handshake.
Context {F : Floating} {B : Board}.

Lemma hardware_after_app (h t : list Event) :
  hardware_after (h ++ t) = fold_left hw_event t (hardware_after h).
Proof. unfold hardware_after. apply fold_left_app. Qed.

Lemma quiescent_no_irq (hw : Hardware) (i : Irq) :
  quiescent hw -> irq_handler hw i = None.
Proof.
  intros [Hpins Htimers]. destruct i as [p | c]; simpl.
  - rewrite Hpins. reflexivity.
  - rewrite Htimers. reflexivity.
Qed.

Lemma watchdog_cmd_keeps_dispatching (hw : Hardware) (c : Cmd) :
  is_watchdog_cmd c = true -> dispatching hw -> dispatching (hw_cmd hw c).
Proof.
  destruct c; intros Hc Hd; try discriminate Hc;
    destruct Hd; constructor; assumption.
Qed.

(** Each of the three callbacks keeps the system dispatching. *)
Lemma callback_keeps_dispatching (w : World) (h : list Event) (f : Callback) :
  dispatching (hardware_after h) ->
  dispatching (hardware_after (h ++ trace w h (callback_body f))).
Proof.
  intros [Hh Hb Hp Hs]. rewrite hardware_after_app.
  destruct f; cbn [callback_body].
  - rewrite buttonCallback_trace_shape. constructor; simpl.
    + exact Hh.
    + exact Hb.
    + exact Hp.
    + intros _. unfold button_port_enabled; simpl.
      unfold set_pin. rewrite Z.eqb_refl. reflexivity.
  - constructor; simpl.
    + exact Hh.
    + exact Hb.
    + exact Hp.
    + intros Hrun. discriminate Hrun.
  - simpl. constructor; assumption.
Qed.

Lemma phase_boot : phase boot.
Proof.
  apply (Starting boot false).
  - split; reflexivity.
  - apply boot_before_enable.
  - intros Hr. discriminate Hr.
Qed.

Lemma phase_step (w : World) (l : Step) (s s' : System) :
  phase s -> step w l s = Some s' -> phase s'.
Proof.
  intros Hphase Hstep. destruct l as [| i]; simpl in Hstep.
  - (* the main thread *)
    destruct (pc s) as [[] | c k | q k | q k] eqn:Hpc;
      injection Hstep as <-.
    + (* next iteration of the loop *)
      destruct Hphase as [registered Hq _ Hreg | Hd _].
      * apply (Starting _ registered); simpl; auto.
      * apply Running; simpl; auto.
    + (* a driver call *)
      destruct Hphase as [registered Hq Hpre Hreg | Hd Hpost];
        rewrite Hpc in *.
      * destruct Hq as [Hpins Htimers].
        destruct c; simpl in Hpre;
          try (destruct Hpre as [Hquiet Hpre];
               first
                 [ discriminate Hquiet
                 | apply (Starting _ registered); simpl;
                   [ rewrite hardware_after_app; split; simpl; assumption
                   | exact Hpre
                   | rewrite hardware_after_app; simpl; exact Hreg ] ]).
        -- (* addCallback on the button *)
           destruct Hpre as [-> [-> Hpre]].
           apply (Starting _ true); simpl.
           ++ rewrite hardware_after_app. split; simpl; assumption.
           ++ exact Hpre.
           ++ intros _. rewrite hardware_after_app. reflexivity.
        -- (* enableInterrupt on the button *)
           destruct Hpre as [-> [-> Hpost]].
           apply Running; simpl; [| exact Hpost].
           rewrite hardware_after_app. constructor; simpl.
           ++ apply Hreg. reflexivity.
           ++ intros p. unfold set_pin.
              destruct (Z.eqb_spec p 13) as [-> | _]; [reflexivity |].
              rewrite Hpins. discriminate.
           ++ apply Htimers.
           ++ rewrite Htimers. discriminate.
      * simpl in Hpost. destruct Hpost as [Hc Hpost].
        apply Running; simpl; [| exact Hpost].
        rewrite hardware_after_app. simpl.
        apply watchdog_cmd_keeps_dispatching; assumption.
    + (* a call returning [bool] *)
      destruct Hphase as [registered Hq Hpre Hreg | Hd Hpost];
        rewrite Hpc in *.
      * apply (Starting _ registered); simpl;
          [rewrite hardware_after_app; exact Hq | apply Hpre
          | rewrite hardware_after_app; exact Hreg].
      * apply Running; simpl;
          [rewrite hardware_after_app; exact Hd | apply Hpost].
    + (* a call returning [double] *)
      destruct Hphase as [registered Hq Hpre Hreg | Hd Hpost];
        rewrite Hpc in *.
      * apply (Starting _ registered); simpl;
          [rewrite hardware_after_app; exact Hq | apply Hpre
          | rewrite hardware_after_app; exact Hreg].
      * apply Running; simpl;
          [rewrite hardware_after_app; exact Hd | apply Hpost].
  - (* an interrupt *)
    destruct Hphase as [registered Hq _ _ | Hd Hpost].
    + rewrite (quiescent_no_irq _ i Hq) in Hstep. discriminate Hstep.
    + destruct (irq_handler (hardware_after (history s)) i) as [f |];
        [| discriminate Hstep].
      injection Hstep as <-. apply Running; simpl; [| exact Hpost].
      apply callback_keeps_dispatching. exact Hd.
Qed.

Lemma phase_steps (w : World) (ls : list Step) :
  forall s s', phase s -> steps w ls s = Some s' -> phase s'.
Proof.
  induction ls as [| l ls IH]; intros s s' Hphase Hsteps; simpl in Hsteps.
  - injection Hsteps as <-. exact Hphase.
  - destruct (step w l s) as [s1 |] eqn:Hstep; [| discriminate Hsteps].
    apply (IH s1); [| exact Hsteps].
    apply (phase_step w l s); assumption.
Qed.

Lemma steps_app (w : World) (l1 l2 : list Step) :
  forall s,
    steps w (l1 ++ l2) s =
    match steps w l1 s with
    | Some s1 => steps w l2 s1
    | None => None
    end.
Proof.
  induction l1 as [| l l1 IH]; intros s; simpl.
  - reflexivity.
  - destruct (step w l s); [apply IH | reflexivity].
Qed.

End Handshake.

Section Supervision.
Context {F : Floating} {B : Board}.

Lemma settling_masks_button (w : World) (s : System) :
  settling s -> step w button_irq s = None.
Proof.
  intros [Hd [_ Hrun]]. unfold button_irq. simpl.
  pose proof (settling_masked _ Hd Hrun) as Hmask.
  unfold button_port_enabled in Hmask. simpl in Hmask.
  rewrite Hmask, andb_false_r. reflexivity.
Qed.

(** While settling, the only step other than the debounce timer's elapse is
    a step of the main thread, and the system stays settling. *)
Lemma settling_step (w : World) (l : Step) (s s' : System) :
  settling s -> step w l s = Some s' -> l <> debounce_irq ->
  l = MainStep /\ settling s'.
Proof.
  intros Hs Hstep Hl. destruct l as [| [p | c]].
  - split; [reflexivity |].
    destruct Hs as [Hd [Hpc Hrun]]. simpl in Hstep.
    destruct (pc s) as [[] | c k | q k | q k] eqn:E; injection Hstep as <-;
      unfold settling; simpl; rewrite ?hardware_after_app; simpl.
    + auto.
    + destruct Hpc as [Hc Hk]. split; [| split].
      * apply watchdog_cmd_keeps_dispatching; assumption.
      * exact Hk.
      * destruct c; try discriminate Hc; exact Hrun.
    + auto.
    + auto.
  - exfalso. destruct Hs as [Hd [_ Hrun]]. simpl in Hstep.
    destruct (pin_interrupt (hardware_after (history s)) p) eqn:Hpin;
      [| discriminate Hstep].
    apply (only_button _ Hd) in Hpin. subst p.
    pose proof (settling_masked _ Hd Hrun) as Hmask.
    unfold button_port_enabled in Hmask. simpl in Hmask, Hstep.
    rewrite Hmask in Hstep. discriminate Hstep.
  - exfalso. destruct c.
    + apply Hl. reflexivity.
    + destruct Hs as [Hd _]. simpl in Hstep.
      pose proof (prediction_stopped _ Hd) as Hstop. simpl in Hstop.
      rewrite Hstop in Hstep. discriminate Hstep.
Qed.

Lemma settling_steps (w : World) (ls : list Step) :
  forall s s',
    settling s -> steps w ls s = Some s' -> ~ In debounce_irq ls ->
    settling s' /\ forall l, In l ls -> l = MainStep.
Proof.
  induction ls as [| l ls IH]; intros s s' Hs Hsteps Hno; simpl in Hsteps.
  - injection Hsteps as <-. split; [exact Hs | intros l []].
  - destruct (step w l s) as [s1 |] eqn:Hstep; [| discriminate Hsteps].
    destruct (settling_step w l s s1 Hs Hstep) as [Hl Hs1].
    { intros ->. apply Hno. left. reflexivity. }
    destruct (IH s1 s' Hs1 Hsteps) as [Hs' Hall].
    { intros Hin. apply Hno. right. exact Hin. }
    split; [exact Hs' |]. intros l' [<- | Hin]; [exact Hl | apply Hall, Hin].
Qed.

(** A delivered button interrupt runs [buttonCallback] and leaves the system
    settling. *)
Lemma button_irq_settles (w : World) (s s' : System) :
  phase s -> step w button_irq s = Some s' -> settling s'.
Proof.
  intros Hphase Hstep. unfold button_irq in Hstep. simpl in Hstep.
  destruct Hphase as [registered [Hpins _] _ _ | Hd Hpost].
  - rewrite Hpins in Hstep. discriminate Hstep.
  - destruct (pin_interrupt (hardware_after (history s)) 13 &&
              port_interrupts (hardware_after (history s)) (ioPort 13));
      [| discriminate Hstep].
    pose proof (button_handler _ Hd) as Hh. simpl in Hh.
    rewrite Hh in Hstep. injection Hstep as <-.
    unfold settling; simpl. split; [| split].
    + apply (callback_keeps_dispatching w (history s) fn_buttonCallback Hd).
    + exact Hpost.
    + cbn [callback_body]. rewrite buttonCallback_trace_shape.
      rewrite hardware_after_app. reflexivity.
Qed.

(** In the running system the debounce timer goes from stopped to running
    only in a button interrupt, and once the button's interrupt is enabled its
    port goes from disabled to enabled only in the debounce timer's elapse. *)
Lemma only_writers (w : World) (l : Step) (s s' : System) :
  phase s -> step w l s = Some s' ->
  (timer_running (hardware_after (history s)) (Timer.circuit debounceTimer)
   = false ->
   timer_running (hardware_after (history s')) (Timer.circuit debounceTimer)
   = true ->
   l = button_irq) /\
  (pin_interrupt (hardware_after (history s)) (GPIO.pin predictionButton)
   = true ->
   button_port_enabled (hardware_after (history s)) = false ->
   button_port_enabled (hardware_after (history s')) = true ->
   l = debounce_irq).
Proof.
  intros Hphase Hstep. unfold button_port_enabled.
  destruct l as [| [p | c]]; simpl in Hstep.
  - (* the main thread writes neither *)
    destruct (pc s) as [[] | c k | q k | q k] eqn:Hpc; injection Hstep as <-;
      simpl; rewrite ?hardware_after_app; simpl;
      try (split; intros; congruence).
    destruct Hphase as [registered [Hpins Htimers] Hpre _ | Hd Hpost];
      rewrite Hpc in *.
    + split; [| intros Hpin; simpl in Hpin; rewrite Hpins in Hpin;
                discriminate Hpin].
      destruct c; simpl in Hpre; simpl; try congruence;
        destruct Hpre as [Hquiet _]; discriminate Hquiet.
    + destruct Hpost as [Hc _].
      destruct c; try discriminate Hc; simpl; split; intros; congruence.
  - (* a pin change *)
    destruct Hphase as [registered Hq _ _ | Hd _].
    + pose proof (quiescent_no_irq _ (PinChange p) Hq) as Hnone.
      simpl in Hnone. rewrite Hnone in Hstep. discriminate Hstep.
    + destruct (pin_interrupt (hardware_after (history s)) p) eqn:Hpin;
        [| discriminate Hstep].
      apply (only_button _ Hd) in Hpin. subst p. split.
      * intros _ _. reflexivity.
      * intros _ Hoff _. simpl in Hstep, Hoff. rewrite Hoff in Hstep.
        discriminate Hstep.
  - (* a timer's elapse *)
    destruct c.
    + split; [| intros _ _ _; reflexivity].
      intros Hoff _. simpl in Hoff. rewrite Hoff in Hstep.
      discriminate Hstep.
    + destruct Hphase as [registered Hq _ _ | Hd _].
      * pose proof (quiescent_no_irq _
                      (TimerElapsed Timer.Circuit_predictionTimer) Hq)
          as Hnone.
        simpl in Hnone. rewrite Hnone in Hstep. discriminate Hstep.
      * pose proof (prediction_stopped _ Hd) as Hstop. simpl in Hstop.
        rewrite Hstop in Hstep. discriminate Hstep.
Qed.

(** C8: the debounce handshake is exclusive.  Of all code of [main.cpp], only
    [buttonCallback] starts a timer and only [debounceTimerCallback] calls
    [enableInterruptsOnIoPort].  In the running system the debounce timer is
    started only by a button interrupt and, once [setup] has enabled the
    button's interrupt, the button's port is re-enabled only by the debounce
    timer's elapse.  Consequently, from a delivered button interrupt until the
    debounce timer's elapse is delivered, only the main thread steps: no
    further button interrupt is dispatched, and the interrupts of the button's
    port are still disabled. *)
Theorem debounce_handshake_exclusive (w : World) :
  (forall h e,
     In e (trace w h static_initialization) \/ In e (trace w h setup) \/
     In e (trace w h loop_body) \/ In e (trace w h debounceTimerCallback) \/
     In e (trace w h predictionTimerCallback) \/
     (exists pin, In e (trace w h (inputVoltage pin))) ->
     is_timer_start e = false) /\
  (forall h e,
     In e (trace w h static_initialization) \/ In e (trace w h setup) \/
     In e (trace w h loop_body) \/ In e (trace w h buttonCallback) \/
     In e (trace w h predictionTimerCallback) \/
     (exists pin, In e (trace w h (inputVoltage pin))) ->
     is_port_enable e = false) /\
  (forall ls l s s',
     steps w ls boot = Some s -> step w l s = Some s' ->
     (timer_running (hardware_after (history s)) (Timer.circuit debounceTimer)
      = false ->
      timer_running (hardware_after (history s')) (Timer.circuit debounceTimer)
      = true ->
      l = button_irq) /\
     (pin_interrupt (hardware_after (history s)) (GPIO.pin predictionButton)
      = true ->
      button_port_enabled (hardware_after (history s)) = false ->
      button_port_enabled (hardware_after (history s')) = true ->
      l = debounce_irq)) /\
  (forall before after s,
     steps w (before ++ button_irq :: after) boot = Some s ->
     ~ In debounce_irq after ->
     button_port_enabled (hardware_after (history s)) = false /\
     (forall l, In l after -> l = MainStep) /\
     step w button_irq s = None).
Proof.
  assert (Hsetup : forall h e, In e (trace w h setup) ->
            is_timer_start e = false /\ is_port_enable e = false).
  { intros h e He.
    destruct (trace_setup w h) as [[_ Ht] | [_ [printout [Hp Ht]]]];
      rewrite Ht in He.
    - simpl in He.
      repeat (destruct He as [He | He]; [subst e; split; reflexivity |]).
      contradiction.
    - unfold setup_prologue in He. simpl in He.
      repeat (destruct He as [He | He]; [subst e; split; reflexivity |]).
      apply in_app_or in He. destruct He as [He | He].
      + rewrite Forall_forall in Hp. specialize (Hp e He).
        destruct e as [c | |]; try (split; reflexivity).
        destruct c; try discriminate Hp. split; reflexivity.
      + simpl in He.
        repeat (destruct He as [He | He]; [subst e; split; reflexivity |]).
        contradiction. }
  split; [| split; [| split]].
  - intros h e [He | [He | [He | [He | [He | [pin He]]]]]].
    + simpl in He.
      repeat (destruct He as [He | He]; [subst e; reflexivity |]).
      contradiction.
    + apply (Hsetup h e He).
    + simpl in He. destruct He as [<- | []]. reflexivity.
    + simpl in He.
      repeat (destruct He as [He | He]; [subst e; reflexivity |]).
      contradiction.
    + destruct He.
    + simpl in He. destruct He as [<- | []]. reflexivity.
  - intros h e [He | [He | [He | [He | [He | [pin He]]]]]].
    + simpl in He.
      repeat (destruct He as [He | He]; [subst e; reflexivity |]).
      contradiction.
    + apply (Hsetup h e He).
    + simpl in He. destruct He as [<- | []]. reflexivity.
    + rewrite buttonCallback_trace_shape in He. simpl in He.
      repeat (destruct He as [He | He]; [subst e; reflexivity |]).
      contradiction.
    + destruct He.
    + simpl in He. destruct He as [<- | []]. reflexivity.
  - intros ls l s s' Hsteps Hstep. apply (only_writers w l s s').
    + apply (phase_steps w ls boot); [apply phase_boot | exact Hsteps].
    + exact Hstep.
  - intros before after s Hsteps Hno. rewrite steps_app in Hsteps.
    destruct (steps w before boot) as [s0 |] eqn:Hbefore;
      [| discriminate Hsteps].
    cbn [steps] in Hsteps.
    destruct (step w button_irq s0) as [s1 |] eqn:Hirq;
      [| discriminate Hsteps].
    assert (Hs1 : settling s1).
    { apply (button_irq_settles w s0); [| exact Hirq].
      apply (phase_steps w before boot); [apply phase_boot | exact Hbefore]. }
    destruct (settling_steps w after s1 s Hs1 Hsteps Hno) as [Hs Hall].
    split; [| split].
    + destruct Hs as [Hd [_ Hrun]]. apply (settling_masked _ Hd Hrun).
    + exact Hall.
    + apply settling_masks_button. exact Hs.
Qed.

Lemma inert_keeps (hw : Hardware) (c : Cmd) :
  inert c = true ->
  pin_interrupt (hw_cmd hw c) = pin_interrupt hw /\
  timer_running (hw_cmd hw c) = timer_running hw /\
  wdt_timeout (hw_cmd hw c) = wdt_timeout hw /\
  wdt_system_reset (hw_cmd hw c) = wdt_system_reset hw.
Proof. destruct c; intros Hc; try discriminate Hc; repeat split. Qed.

Lemma unsupervised_step (w : World) (l : Step) (s s' : System) :
  unsupervised w s -> step w l s = Some s' ->
  l = MainStep /\ unsupervised w s'.
Proof.
  intros [Hq [Ht [Hr Hfuture]]] Hstep. destruct l as [| i].
  - split; [reflexivity |]. simpl in Hstep.
    destruct (pc s) as [[] | c k | q k | q k] eqn:E; injection Hstep as <-;
      unfold unsupervised; simpl; rewrite ?hardware_after_app; simpl.
    + repeat split; try assumption; try apply Hq.
      repeat constructor.
    + rewrite trace_Do in Hfuture. inversion Hfuture as [| e t Hc Hrest];
        subst. simpl in Hc.
      destruct (inert_keeps (hardware_after (history s)) c Hc)
        as [Hp [Htm [Hwt Hwr]]].
      unfold quiescent. rewrite Hp, Htm, Hwt, Hwr. auto.
    + rewrite trace_AskBool in Hfuture.
      inversion Hfuture as [| e t Hc Hrest]; subst. auto.
    + rewrite trace_AskDouble in Hfuture.
      inversion Hfuture as [| e t Hc Hrest]; subst. auto.
  - simpl in Hstep. rewrite (quiescent_no_irq _ i Hq) in Hstep.
    discriminate Hstep.
Qed.

Lemma unsupervised_steps (w : World) (ls : list Step) :
  forall s s', unsupervised w s -> steps w ls s = Some s' ->
    unsupervised w s' /\ forall l, In l ls -> l = MainStep.
Proof.
  induction ls as [| l ls IH]; intros s s' Hs Hsteps; simpl in Hsteps.
  - injection Hsteps as <-. split; [exact Hs | intros l []].
  - destruct (step w l s) as [s1 |] eqn:Hstep; [| discriminate Hsteps].
    destruct (unsupervised_step w l s s1 Hs Hstep) as [Hl Hs1].
    destruct (IH s1 s' Hs1 Hsteps) as [Hs' Hall].
    split; [exact Hs' |]. intros l' [<- | Hin]; [exact Hl | apply Hall, Hin].
Qed.

(** C10: when the training call of [setup] fails, [main] still enters its
    loop and calls [watchdog::reset()] in every iteration, while
    [watchdog::init] and [watchdog::enableSystemReset] are never called: the
    program's trace after [n] iterations is the static construction, the
    failing [setup] and [n] resets.  In the running system no interrupt is
    ever delivered on that path and the watchdog is never armed. *)
Theorem training_failure_leaves_watchdog_unarmed (w : World) :
  In (ReturnedBool (LinReg_train 100) false)
     (trace w (trace w [] static_initialization) setup) ->
  (forall n : nat,
     program_trace w n =
       trace w [] static_initialization ++ setup_failure_trace ++
       repeat (Called watchdog_reset) n /\
     forall e, In e (program_trace w n) -> is_watchdog_arming e = false) /\
  (forall ls s,
     steps w ls boot = Some s ->
     (forall l, In l ls -> l = MainStep) /\
     wdt_timeout (hardware_after (history s)) = None /\
     wdt_system_reset (hardware_after (history s)) = false /\
     ~ watchdog_armed (hardware_after (history s))).
Proof.
  intros Hfail. apply setup_reports in Hfail.
  assert (Hsetup :
    trace w (trace w [] static_initialization) setup = setup_failure_trace).
  { destruct (trace_setup w (trace w [] static_initialization))
      as [[_ Ht] | [Ha _]]; [exact Ht |].
    rewrite Ha in Hfail. discriminate Hfail. }
  split.
  - intros n.
    assert (Hprog :
      program_trace w n =
      trace w [] static_initialization ++ setup_failure_trace ++
      repeat (Called watchdog_reset) n).
    { unfold program_trace. rewrite trace_seq. cbn [app].
      rewrite trace_main_upto, Hsetup. reflexivity. }
    split; [exact Hprog |]. rewrite Hprog. intros e He. simpl in He.
    repeat (destruct He as [He | He]; [subst e; reflexivity |]).
    apply repeat_spec in He. subst e. reflexivity.
  - intros ls s Hsteps.
    assert (Hboot : unsupervised w boot).
    { unfold unsupervised, boot; cbn [history pc].
      repeat split.
      rewrite trace_seq. cbn [app]. rewrite Hsetup.
      simpl. repeat constructor. }
    destruct (unsupervised_steps w ls boot s Hboot Hsteps)
      as [[_ [Ht [Hr _]]] Hall].
    repeat split; try assumption.
    intros [_ Harmed]. rewrite Hr in Harmed. discriminate Harmed.
Qed.

End Supervision.

(** ** The control states are an invariant of the running system *)

Section StageInvariant.
Context {F : Floating} {B : Board}.

Lemma emits_bind {A C : Type} (P : Event -> bool)
  (p : Prog A) (f : A -> Prog C) :
  emits P p -> (forall a, emits P (f a)) -> emits P (bind p f).
Proof.
  intros Hp Hf.
  induction p as [a | c k IH | q k IH | q k IH]; simpl in *.
  - apply Hf.
  - destruct Hp as [Hc Hk]. split; [exact Hc | apply IH, Hk].
  - intros r. destruct (Hp r) as [Hq Hk]. split; [exact Hq | apply IH, Hk].
  - intros r. destruct (Hp r) as [Hq Hk]. split; [exact Hq | apply IH, Hk].
Qed.

Lemma emits_weaken {A : Type} (P Q : Event -> bool) (p : Prog A) :
  (forall e, P e = true -> Q e = true) -> emits P p -> emits Q p.
Proof.
  intros HPQ.
  induction p as [a | c k IH | q k IH | q k IH]; simpl.
  - trivial.
  - intros [Hc Hk]. split; [apply HPQ, Hc | apply IH, Hk].
  - intros Hp r. destruct (Hp r) as [Hq Hk].
    split; [apply HPQ, Hq | apply IH, Hk].
  - intros Hp r. destruct (Hp r) as [Hq Hk].
    split; [apply HPQ, Hq | apply IH, Hk].
Qed.

(** What [emits] promises holds of every trace. *)
Lemma emits_trace {A : Type} (P : Event -> bool) (w : World) (p : Prog A) :
  emits P p -> forall h, Forall (fun e => P e = true) (trace w h p).
Proof.
  induction p as [a | c k IH | q k IH | q k IH]; simpl; intros Hp h.
  - constructor.
  - destruct Hp as [Hc Hk]. rewrite trace_Do. constructor; [exact Hc |].
    apply IH, Hk.
  - rewrite trace_AskBool. destruct (Hp (answer_bool w h q)) as [Hq Hk].
    constructor; [exact Hq | apply IH, Hk].
  - rewrite trace_AskDouble. destruct (Hp (answer_double w h q)) as [Hq Hk].
    constructor; [exact Hq | apply IH, Hk].
Qed.

Lemma print_prediction_emits (x : double) :
  emits is_printout (print_prediction x).
Proof.
  unfold print_prediction. simpl. intros p. split; [reflexivity |].
  destruct (double_ltb p (double_lit 0)); simpl; intros p';
    repeat split.
Qed.

Lemma for_each_emits (xs : list double) :
  emits is_printout (for_each xs print_prediction).
Proof.
  induction xs as [| x xs IH]; cbn [for_each].
  - exact I.
  - apply (emits_bind is_printout (print_prediction x)
             (fun _ => for_each xs print_prediction)).
    + apply print_prediction_emits.
    + intros _. exact IH.
Qed.

Lemma configuring_bind_printout {A : Type} (trained : option bool)
  (button debounce : bool) (p : Prog A) (f : A -> Prog unit) :
  emits is_printout p ->
  (forall a, configuring trained button debounce (f a)) ->
  configuring trained button debounce (bind p f).
Proof.
  intros Hp Hf.
  induction p as [a | c k IH | q k IH | q k IH]; simpl in *.
  - apply Hf.
  - destruct Hp as [Hc Hk]. destruct c; try discriminate Hc.
    apply IH, Hk.
  - destruct (Hp true) as [Hq _]. discriminate Hq.
  - intros r. destruct (Hp r) as [_ Hk]. apply IH, Hk.
Qed.

Lemma boot_configuring :
  configuring None false false (static_initialization ;; setup).
Proof.
  simpl. repeat (split; [reflexivity |]).
  intros trained. destruct trained; simpl.
  - unfold setup_trained.
    apply (configuring_bind_printout (Some true) false false
             (for_each trainingInput print_prediction)).
    + apply for_each_emits.
    + intros _. simpl. repeat split.
      left. repeat split. right. repeat split.
  - repeat split.
Qed.

Lemma watchdog_log_app (h t : list Event) :
  watchdog_log (h ++ t) = watchdog_log h ++ watchdog_log t.
Proof. apply filter_app. Qed.

Lemma watchdog_cmd_keeps_enabled (hw : Hardware) (c : Cmd) :
  is_watchdog_cmd c = true -> enabled_state hw -> enabled_state (hw_cmd hw c).
Proof.
  destruct c; intros Hc Hen; try discriminate Hc;
    destruct Hen as [[] ? ? ? ?]; repeat constructor; assumption.
Qed.

(** A handler leaves the system enabled and does not touch the watchdog. *)
Lemma callback_keeps_enabled (w : World) (h : list Event) (f : Callback) :
  enabled_state (hardware_after h) ->
  enabled_state (hardware_after (h ++ trace w h (callback_body f))) /\
  wdt_timeout (hardware_after (h ++ trace w h (callback_body f))) =
  wdt_timeout (hardware_after h) /\
  wdt_system_reset (hardware_after (h ++ trace w h (callback_body f))) =
  wdt_system_reset (hardware_after h) /\
  watchdog_log (h ++ trace w h (callback_body f)) = watchdog_log h.
Proof.
  intros Hen. split.
  - constructor.
    + apply callback_keeps_dispatching. apply (en_dispatching _ Hen).
    + rewrite hardware_after_app.
      destruct f; cbn [callback_body];
        rewrite ?buttonCallback_trace_shape; simpl;
        apply (en_button _ Hen).
    + rewrite hardware_after_app.
      destruct f; cbn [callback_body];
        rewrite ?buttonCallback_trace_shape; simpl;
        apply (en_debounce_handler _ Hen).
    + rewrite hardware_after_app. unfold button_port_enabled.
      destruct f; cbn [callback_body];
        rewrite ?buttonCallback_trace_shape; simpl; unfold set_pin;
        rewrite ?Z.eqb_refl; try reflexivity.
      apply (en_two_state _ Hen).
    + rewrite hardware_after_app.
      destruct f; cbn [callback_body];
        rewrite ?buttonCallback_trace_shape; simpl;
        apply (en_led_off _ Hen).
  - rewrite hardware_after_app, watchdog_log_app.
    destruct f; cbn [callback_body];
      rewrite ?buttonCallback_trace_shape; simpl;
      rewrite ?app_nil_r; repeat split.
Qed.

Lemma stage_boot : stage boot.
Proof.
  apply (Configuring boot None false false); try reflexivity.
  - split; reflexivity.
  - apply boot_configuring.
  - intros r Hr. discriminate Hr.
  - intros Hb. discriminate Hb.
  - intros Hd. discriminate Hd.
Qed.

Lemma stage_step (w : World) (l : Step) (s s' : System) :
  stage s -> step w l s = Some s' -> stage s'.
Proof.
  intros Hstage Hstep. destruct l as [| i]; simpl in Hstep.
  - (* the main thread *)
    destruct Hstage
      as [trained button debounce Hq Ht Hr Hled Hlog Hcfg Htr Hb Hd
         | n Hq Ht Hr Hled Hfail Hlog Hpc
         | Hen Hok Ht Hr Hlog Hpc
         | Hen Hok Ht Hr Hlog Hpc
         | n Hen Hok Ht Hr Hlog Hpc].
    + (* configuring *)
      destruct (pc s) as [[] | c k | q k | q k] eqn:Epc;
        injection Hstep as <-.
      * destruct Hcfg.
      * destruct c; simpl in Hcfg; try contradiction;
          try (apply (Configuring _ trained button debounce);
               cbn [history pc];
               rewrite ?hardware_after_app, ?watchdog_log_app;
               cbn [fold_left hw_event hw_cmd watchdog_log filter
                    touches_watchdog];
               rewrite ?app_nil_r;
               solve [ assumption
                     | intros r Hr'; apply in_or_app; left; auto ]).
        -- (* errorLed.set() *)
           destruct Hcfg as [-> [-> Hk]].
           apply (Degraded _ 0); cbn [history pc];
             rewrite ?hardware_after_app, ?watchdog_log_app; simpl;
             rewrite ?app_nil_r; auto.
           apply in_or_app. left. auto.
        -- (* addCallback on the button *)
           destruct Hcfg as [-> [-> Hk]].
           apply (Configuring _ trained true debounce); cbn [history pc];
             rewrite ?hardware_after_app, ?watchdog_log_app; simpl;
             rewrite ?app_nil_r; auto.
           intros r Hr'. apply in_or_app. left. auto.
        -- (* enableInterrupt on the button *)
           destruct Hcfg as [-> [-> [-> [-> ->]]]].
           destruct Hq as [Hpins Htimers].
           apply Arming; cbn [history pc];
             rewrite ?hardware_after_app, ?watchdog_log_app; simpl;
             rewrite ?app_nil_r; auto.
           ++ constructor; [constructor | | | |]; simpl.
              ** apply Hb. reflexivity.
              ** intros p. unfold set_pin.
                 destruct (Z.eqb_spec p 13) as [-> | _]; [reflexivity |].
                 rewrite Hpins. discriminate.
              ** apply Htimers.
              ** rewrite Htimers. discriminate.
              ** reflexivity.
              ** apply Hd. reflexivity.
              ** unfold button_port_enabled, set_pin; simpl.
                 rewrite Z.eqb_refl, Htimers. reflexivity.
              ** exact Hled.
           ++ apply in_or_app. left. auto.
        -- (* addCallback on a timer *)
           destruct Hcfg as [[-> [-> Hk]] | [-> [-> Hk]]].
           ++ apply (Configuring _ trained button true); cbn [history pc];
                rewrite ?hardware_after_app, ?watchdog_log_app; simpl;
                rewrite ?app_nil_r; auto.
              intros r Hr'. apply in_or_app. left. auto.
           ++ apply (Configuring _ trained button debounce);
                cbn [history pc];
                rewrite ?hardware_after_app, ?watchdog_log_app; simpl;
                rewrite ?app_nil_r; auto.
              intros r Hr'. apply in_or_app. left. auto.
      * (* train *)
        destruct q as [epochs | g]; simpl in Hcfg; [| contradiction].
        destruct Hcfg as [-> [-> Hk]].
        apply (Configuring _ (Some (answer_bool w (history s)
                                      (LinReg_train 100))) button debounce);
          cbn [history pc];
          rewrite ?hardware_after_app, ?watchdog_log_app; simpl;
          rewrite ?app_nil_r; auto.
        intros r Hr'. injection Hr' as <-.
        apply in_or_app. right. left. reflexivity.
      * (* predict *)
        simpl in Hcfg.
        apply (Configuring _ trained button debounce); cbn [history pc];
          rewrite ?hardware_after_app, ?watchdog_log_app; simpl;
          rewrite ?app_nil_r; auto.
        intros r Hr'. apply in_or_app. left. auto.
    + (* degraded *)
      destruct (pc s) as [[] | c k | q k | q k] eqn:Epc;
        injection Hstep as <-.
      * apply (Degraded _ n); cbn [history pc]; auto.
        simpl. auto.
      * simpl in Hpc. destruct Hpc as [Hc Hk].
        destruct c; try discriminate Hc.
        -- apply (Degraded _ n); cbn [history pc];
             rewrite ?hardware_after_app, ?watchdog_log_app; simpl;
             rewrite ?app_nil_r; auto.
           apply in_or_app. left. auto.
        -- apply (Degraded _ (S n)); cbn [history pc];
             rewrite ?hardware_after_app, ?watchdog_log_app; simpl; auto.
           ++ apply in_or_app. left. auto.
           ++ rewrite Hlog. symmetry. apply repeat_cons.
      * apply (Degraded _ n); cbn [history pc];
          rewrite ?hardware_after_app, ?watchdog_log_app; simpl;
          rewrite ?app_nil_r; auto;
          try (apply in_or_app; left; assumption); apply Hpc.
      * apply (Degraded _ n); cbn [history pc];
          rewrite ?hardware_after_app, ?watchdog_log_app; simpl;
          rewrite ?app_nil_r; auto;
          try (apply in_or_app; left; assumption); apply Hpc.
    + (* arming: watchdog::init *)
      rewrite Hpc in Hstep. simpl in Hstep. injection Hstep as <-.
      apply Committing; cbn [history pc];
        rewrite ?hardware_after_app, ?watchdog_log_app; simpl; auto.
      * apply (watchdog_cmd_keeps_enabled _
                 (watchdog_init watchdog.Timeout1024ms)); auto.
      * apply in_or_app. left. auto.
      * rewrite Hlog. reflexivity.
    + (* committing: watchdog::enableSystemReset *)
      rewrite Hpc in Hstep. simpl in Hstep. injection Hstep as <-.
      apply (Supervised _ 0); cbn [history pc];
        rewrite ?hardware_after_app, ?watchdog_log_app; simpl; auto.
      * apply (watchdog_cmd_keeps_enabled _ watchdog_enableSystemReset);
          auto.
      * apply in_or_app. left. auto.
      * rewrite Hlog. reflexivity.
    + (* supervised: the loop *)
      destruct Hpc as [Hpc | Hpc]; rewrite Hpc in Hstep; simpl in Hstep;
        injection Hstep as <-.
      * apply (Supervised _ n); cbn [history pc]; auto.
      * apply (Supervised _ (S n)); cbn [history pc];
          rewrite ?hardware_after_app, ?watchdog_log_app; simpl; auto;
          try (apply in_or_app; left; assumption).
        rewrite Hlog. simpl. do 2 f_equal. symmetry. apply repeat_cons.
  - (* an interrupt *)
    destruct Hstage
      as [trained button debounce Hq Ht Hr Hled Hlog Hcfg Htr Hb Hd
         | n Hq Ht Hr Hled Hfail Hlog Hpc
         | Hen Hok Ht Hr Hlog Hpc
         | Hen Hok Ht Hr Hlog Hpc
         | n Hen Hok Ht Hr Hlog Hpc];
      try (rewrite (quiescent_no_irq _ i Hq) in Hstep; discriminate Hstep);
      (destruct (irq_handler (hardware_after (history s)) i) as [f |];
         [| discriminate Hstep]);
      injection Hstep as <-;
      destruct (callback_keeps_enabled w (history s) f Hen)
        as [Hen' [Ht' [Hr' Hlog']]].
    + apply Arming; cbn [history pc]; try congruence.
      apply in_or_app. left. exact Hok.
    + apply Committing; cbn [history pc]; try congruence.
      apply in_or_app. left. exact Hok.
    + apply (Supervised _ n); cbn [history pc]; try congruence.
      apply in_or_app. left. exact Hok.
Qed.

Lemma stage_steps (w : World) (ls : list Step) :
  forall s s', stage s -> steps w ls s = Some s' -> stage s'.
Proof.
  induction ls as [| l ls IH]; intros s s' Hstage Hsteps; simpl in Hsteps.
  - injection Hsteps as <-. exact Hstage.
  - destruct (step w l s) as [s1 |] eqn:Hstep; [| discriminate Hsteps].
    apply (IH s1); [| exact Hsteps].
    apply (stage_step w l s); assumption.
Qed.

(** Every state the system reaches from [boot] is in one of the stages. *)
Lemma reachable_stage (w : World) (ls : list Step) (s : System) :
  steps w ls boot = Some s -> stage s.
Proof. apply stage_steps, stage_boot. Qed.

End StageInvariant.

(** ** What the running system does and never does *)

Section SystemProperties.
Context {F : Floating} {B : Board}.

(** X1: in every execution, with interrupts interleaved at any points, the
    calls made to the watchdog are either resets only, which requires a
    failed training before the first of them, or a prefix of
    [init(Timeout1024ms)], [enableSystemReset()], [reset()], [reset()], ...
    after a successful training.  So [init] is called at most once, always
    before [enableSystemReset], and no [reset] precedes them. *)
Theorem watchdog_protocol (w : World) (ls : list Step) (s : System) :
  steps w ls boot = Some s ->
  (exists n,
     watchdog_log (history s) = repeat (Called watchdog_reset) n /\
     (n <> 0%nat ->
      In (ReturnedBool (LinReg_train 100) false) (history s))) \/
  (watchdog_log (history s) =
     [Called (watchdog_init watchdog.Timeout1024ms)] /\
   In (ReturnedBool (LinReg_train 100) true) (history s)) \/
  (exists n,
     watchdog_log (history s) =
       [Called (watchdog_init watchdog.Timeout1024ms);
        Called watchdog_enableSystemReset] ++
       repeat (Called watchdog_reset) n /\
     In (ReturnedBool (LinReg_train 100) true) (history s)).
Proof.
  intros Hsteps.
  destruct (reachable_stage w ls s Hsteps)
    as [trained button debounce _ _ _ _ Hlog _ _ _ _
       | n _ _ _ _ Hfail Hlog _
       | _ _ _ _ Hlog _
       | _ Hok _ _ Hlog _
       | n _ Hok _ _ Hlog _].
  - left. exists 0%nat. split; [exact Hlog | intros H; contradiction].
  - left. exists n. split; [exact Hlog | intros _; exact Hfail].
  - left. exists 0%nat. split; [exact Hlog | intros H; contradiction].
  - right. left. split; assumption.
  - right. right. exists n. split; assumption.
Qed.

Lemma existsb_reset_call (h : list Event) :
  existsb is_reset_call h = true -> In (Called watchdog_reset) h.
Proof.
  intros Hex. apply existsb_exists in Hex. destruct Hex as [e [Hin He]].
  destruct e as [c | |]; try discriminate He.
  destruct c; try discriminate He. exact Hin.
Qed.

Lemma in_watchdog_log (e : Event) (h : list Event) :
  In e h -> touches_watchdog e = true -> In e (watchdog_log h).
Proof. intros Hin He. apply filter_In. split; assumption. Qed.

(** X2: once the main loop has serviced the watchdog, the system is in one of
    two modes and stays there.  Supervised: training succeeded, the watchdog
    is armed in system-reset mode with the 1024 ms timeout, the button's
    interrupt is enabled and the error LED is off.  Degraded: training
    failed, the error LED is on, the watchdog has never been initialised and
    no interrupt can be delivered. *)
Theorem operating_modes (w : World) (ls : list Step) (s : System) :
  steps w ls boot = Some s ->
  In (Called watchdog_reset) (history s) ->
  (In (ReturnedBool (LinReg_train 100) true) (history s) /\
   watchdog_armed (hardware_after (history s)) /\
   wdt_timeout (hardware_after (history s)) =
   Some watchdog.Timeout1024ms /\
   pin_interrupt (hardware_after (history s)) (GPIO.pin predictionButton) =
   true /\
   gpio_output (hardware_after (history s)) (GPIO.pin errorLed) = false) \/
  (In (ReturnedBool (LinReg_train 100) false) (history s) /\
   ~ watchdog_armed (hardware_after (history s)) /\
   wdt_timeout (hardware_after (history s)) = None /\
   quiescent (hardware_after (history s)) /\
   gpio_output (hardware_after (history s)) (GPIO.pin errorLed) = true).
Proof.
  intros Hsteps Hreset.
  apply in_watchdog_log in Hreset; [| reflexivity].
  destruct (reachable_stage w ls s Hsteps)
    as [trained button debounce _ _ _ _ Hlog _ _ _ _
       | n Hq Ht Hr Hled Hfail _ _
       | _ _ _ _ Hlog _
       | _ _ _ _ Hlog _
       | n Hen Hok Ht Hr _ _].
  - rewrite Hlog in Hreset. destruct Hreset.
  - right. repeat split; try assumption; try apply Hq.
    intros [_ Harmed]. rewrite Hr in Harmed. discriminate Harmed.
  - rewrite Hlog in Hreset. destruct Hreset.
  - rewrite Hlog in Hreset. destruct Hreset as [H | []]. discriminate H.
  - left. repeat split; try assumption.
    + rewrite Ht. discriminate.
    + apply (en_button _ Hen).
    + apply (en_led_off _ Hen).
Qed.


(** What the two interrupt steps do in an enabled system. *)
Lemma enabled_dispatch (w : World) (s : System) :
  enabled_state (hardware_after (history s)) ->
  step w button_irq s =
    (if button_port_enabled (hardware_after (history s))
     then Some {| history :=
                    history s ++ trace w (history s) buttonCallback;
                  pc := pc s |}
     else None) /\
  step w debounce_irq s =
    (if timer_running (hardware_after (history s))
          (Timer.circuit debounceTimer)
     then Some {| history :=
                    history s ++ trace w (history s) debounceTimerCallback;
                  pc := pc s |}
     else None) /\
  step w (Interrupt (TimerElapsed (Timer.circuit predictionTimer))) s = None /\
  forall p, p <> GPIO.pin predictionButton ->
    step w (Interrupt (PinChange p)) s = None.
Proof.
  intros Hen.
  pose proof (button_handler _ (en_dispatching _ Hen)) as Hhandler.
  pose proof (en_debounce_handler _ Hen) as Hdebounce.
  pose proof (en_button _ Hen) as Hpin.
  pose proof (prediction_stopped _ (en_dispatching _ Hen)) as Hstop.
  unfold button_irq, debounce_irq, button_port_enabled. simpl in *.
  rewrite Hpin, Hhandler, Hdebounce, Hstop. simpl.
  repeat split.
  - destruct (port_interrupts (hardware_after (history s)) (ioPort 13));
      reflexivity.
  - destruct (timer_running (hardware_after (history s))
                Timer.Circuit_debounceTimer); reflexivity.
  - intros p Hp.
    destruct (pin_interrupt (hardware_after (history s)) p) eqn:E;
      [| reflexivity].
    apply (only_button _ (en_dispatching _ Hen)) in E. contradiction.
Qed.

Lemma reachable_enabled (w : World) (ls : list Step) (s : System) :
  steps w ls boot = Some s ->
  (exists i, irq_handler (hardware_after (history s)) i <> None) \/
  pin_interrupt (hardware_after (history s)) (GPIO.pin predictionButton)
  = true ->
  enabled_state (hardware_after (history s)).
Proof.
  intros Hsteps Hlive.
  destruct (reachable_stage w ls s Hsteps)
    as [trained button debounce Hq _ _ _ _ _ _ _ _
       | n Hq _ _ _ _ _ _
       | Hen _ _ _ _ _
       | Hen _ _ _ _ _
       | n Hen _ _ _ _ _];
    try exact Hen;
    (destruct Hlive as [[i Hi] | Hpin];
     [ exfalso; apply Hi, quiescent_no_irq, Hq
     | destruct Hq as [Hpins _]; rewrite Hpins in Hpin; discriminate Hpin ]).
Qed.

(** X4: a press and the following debounce elapse are a round trip.  From a
    state with the button's interrupt enabled and the debounce timer stopped,
    the button interrupt and then the debounce elapse are both delivered;
    together they add exactly five events (mask the port, start the timer,
    read the pin, stop the timer, unmask the port), leave the main thread
    where it was, and end with the port enabled and the timer stopped
    again. *)
Theorem press_then_elapse_restores_idle
  (w : World) (ls : list Step) (s : System) :
  steps w ls boot = Some s ->
  pin_interrupt (hardware_after (history s)) (GPIO.pin predictionButton)
  = true ->
  timer_running (hardware_after (history s)) (Timer.circuit debounceTimer)
  = false ->
  exists level s',
    steps w [button_irq; debounce_irq] s = Some s' /\
    history s' =
      history s ++
      [Called (GPIO_disableInterruptsOnIoPort predictionButton);
       Called (Timer_start debounceTimer);
       ReturnedBool (GPIO_read predictionButton) level;
       Called (Timer_stop debounceTimer);
       Called (GPIO_enableInterruptsOnIoPort predictionButton)] /\
    pc s' = pc s /\
    button_port_enabled (hardware_after (history s')) = true /\
    timer_running (hardware_after (history s'))
      (Timer.circuit debounceTimer) = false.
Proof.
  intros Hsteps Hpin Hidle.
  assert (Hen : enabled_state (hardware_after (history s))).
  { apply (reachable_enabled w ls s Hsteps). right. exact Hpin. }
  destruct (enabled_dispatch w s Hen) as [Hbutton _].
  rewrite (en_two_state _ Hen), Hidle in Hbutton. cbn [negb] in Hbutton.
  destruct (callback_keeps_enabled w (history s) fn_buttonCallback Hen)
    as [Hen1 _].
  cbn [callback_body] in Hen1.
  destruct (enabled_dispatch w
              {| history := history s ++ trace w (history s) buttonCallback;
                 pc := pc s |} Hen1) as [_ [Hdebounce _]].
  cbn [history pc] in Hdebounce.
  assert (Hrun :
    timer_running
      (hardware_after (history s ++ trace w (history s) buttonCallback))
      (Timer.circuit debounceTimer) = true).
  { rewrite buttonCallback_trace_shape, hardware_after_app. reflexivity. }
  rewrite Hrun in Hdebounce.
  exists (answer_bool w
            (history s ++
             [Called (GPIO_disableInterruptsOnIoPort predictionButton);
              Called (Timer_start debounceTimer)])
            (GPIO_read predictionButton)).
  eexists. split; [| split; [| split; [| split]]].
  - cbn [steps]. rewrite Hbutton, Hdebounce. reflexivity.
  - cbn [history]. rewrite buttonCallback_trace_shape, <- app_assoc.
    reflexivity.
  - reflexivity.
  - cbn [history]. rewrite buttonCallback_trace_shape.
    rewrite !hardware_after_app.
    unfold button_port_enabled. simpl. unfold set_pin.
    rewrite Z.eqb_refl. reflexivity.
  - cbn [history]. rewrite buttonCallback_trace_shape.
    rewrite !hardware_after_app. reflexivity.
Qed.

(** X5: only two interrupts are ever delivered, each to the handler [setup]
    registered for it: a pin change of the button runs [buttonCallback], the
    elapse of the debounce timer runs [debounceTimerCallback].  The 60 s
    timer is never started, so its elapse is never delivered and
    [predictionTimerCallback] never runs. *)
Theorem interrupt_dispatch (w : World) (ls : list Step) (s : System) :
  steps w ls boot = Some s ->
  step w (Interrupt (TimerElapsed (Timer.circuit predictionTimer))) s = None /\
  timer_running (hardware_after (history s)) (Timer.circuit predictionTimer)
  = false /\
  forall i s',
    step w (Interrupt i) s = Some s' ->
    (Interrupt i = button_irq /\
     s' = {| history := history s ++ trace w (history s) buttonCallback;
             pc := pc s |}) \/
    (Interrupt i = debounce_irq /\
     s' = {| history :=
               history s ++ trace w (history s) debounceTimerCallback;
             pc := pc s |}).
Proof.
  intros Hsteps.
  assert (Hstop :
    timer_running (hardware_after (history s))
      (Timer.circuit predictionTimer) = false).
  { destruct (reachable_stage w ls s Hsteps)
      as [trained button debounce [_ Htimers] _ _ _ _ _ _ _ _
         | n [_ Htimers] _ _ _ _ _ _
         | Hen _ _ _ _ _
         | Hen _ _ _ _ _
         | n Hen _ _ _ _ _];
      try apply Htimers;
      apply (prediction_stopped _ (en_dispatching _ Hen)). }
  split; [| split; [exact Hstop |]].
  - simpl in *. rewrite Hstop. reflexivity.
  - intros i s' Hstep.
    assert (Hen : enabled_state (hardware_after (history s))).
    { apply (reachable_enabled w ls s Hsteps). left. exists i.
      simpl in Hstep. intros Hnone. rewrite Hnone in Hstep.
      discriminate Hstep. }
    destruct (enabled_dispatch w s Hen) as [Hb [Hd [Hp Hother]]].
    destruct i as [p | c].
    + destruct (Z.eq_dec p (GPIO.pin predictionButton)) as [-> | Hne].
      * left. split; [reflexivity |]. fold button_irq in Hstep.
        rewrite Hb in Hstep.
        destruct (button_port_enabled (hardware_after (history s)));
          [| discriminate Hstep].
        injection Hstep as <-. reflexivity.
      * rewrite (Hother p Hne) in Hstep. discriminate Hstep.
    + destruct c.
      * right. split; [reflexivity |].
        change (Interrupt (TimerElapsed Timer.Circuit_debounceTimer))
          with debounce_irq in Hstep.
        rewrite Hd in Hstep.
        destruct (timer_running (hardware_after (history s))
                    (Timer.circuit debounceTimer)); [| discriminate Hstep].
        injection Hstep as <-. reflexivity.
      * unfold predictionTimer in Hp. cbn [Timer.circuit] in Hp.
        rewrite Hp in Hstep. discriminate Hstep.
Qed.

(** If the main thread's code and the handlers are limited to events
    satisfying [P], so is every history. *)
Lemma reachable_events (P : Event -> bool) (w : World) :
  emits P loop_body ->
  (forall f, emits P (callback_body f)) ->
  forall ls s s0,
    Forall (fun e => P e = true) (history s0) -> emits P (pc s0) ->
    steps w ls s0 = Some s ->
    Forall (fun e => P e = true) (history s) /\ emits P (pc s).
Proof.
  intros Hloop Hcallbacks.
  induction ls as [| l ls IH]; intros s s0 Hh Hpc Hsteps; simpl in Hsteps.
  - injection Hsteps as <-. split; assumption.
  - destruct (step w l s0) as [s1 |] eqn:Hstep; [| discriminate Hsteps].
    apply (IH s s1); [| | exact Hsteps]; destruct l as [| i]; simpl in Hstep.
    + destruct (pc s0) as [[] | c k | q k | q k]; injection Hstep as <-;
        cbn [history]; try assumption; simpl in Hpc;
        apply Forall_app; (split; [exact Hh |]); repeat constructor;
        first [apply Hpc | apply (proj1 (Hpc _))].
    + destruct (irq_handler (hardware_after (history s0)) i) as [f |];
        [| discriminate Hstep].
      injection Hstep as <-. cbn [history]. apply Forall_app.
      split; [exact Hh | apply emits_trace, Hcallbacks].
    + destruct (pc s0) as [[] | c k | q k | q k]; injection Hstep as <-;
        cbn [pc]; simpl in Hpc; first [exact Hloop | apply Hpc].
    + destruct (irq_handler (hardware_after (history s0)) i) as [f |];
        [| discriminate Hstep].
      injection Hstep as <-. exact Hpc.
Qed.

(** X6: [inputVoltage] reads the ADC once and scales the result by [Vcc],
    but nothing calls it: in no execution, with or without interrupts, is
    the ADC ever read after [adc::init()]. *)
Theorem adc_never_read (w : World) (ls : list Step) (s : System) :
  steps w ls boot = Some s ->
  (forall e, In e (history s) -> is_adc_read e = false) /\
  forall h pin,
    run w h (inputVoltage pin) =
    (double_mul (answer_double w h (adc_getDutyCycle pin)) Vcc,
     [ReturnedDouble (adc_getDutyCycle pin)
        (answer_double w h (adc_getDutyCycle pin))]).
Proof.
  intros Hsteps. split; [| reflexivity].
  assert (Hprintout : forall e, is_printout e = true ->
            negb (is_adc_read e) = true).
  { intros [c | q r | q r] He; try reflexivity.
    destruct q; [reflexivity | discriminate He]. }
  assert (Hboot :
    emits (fun e => negb (is_adc_read e)) (static_initialization ;; setup)).
  { unfold static_initialization, setup.
    cbn [bind call ask_bool emits].
    do 7 (split; [reflexivity |]).
    intros trained. split; [reflexivity |].
    destruct trained; cbn [negb bind call emits].
    - unfold setup_trained.
      apply (emits_bind (fun e => negb (is_adc_read e))
               (for_each trainingInput print_prediction)
               (fun _ =>
                  call (GPIO_addCallback predictionButton fn_buttonCallback) ;;
                  call (Timer_addCallback debounceTimer
                          fn_debounceTimerCallback) ;;
                  call (Timer_addCallback predictionTimer
                          fn_predictionTimerCallback) ;;
                  call (GPIO_enableInterrupt predictionButton) ;;
                  call (watchdog_init watchdog.Timeout1024ms) ;;
                  call watchdog_enableSystemReset)).
      + apply (emits_weaken is_printout); [exact Hprintout |].
        apply for_each_emits.
      + intros _. cbn [bind call emits]. repeat split.
    - repeat split. }
  destruct (reachable_events (fun e => negb (is_adc_read e)) w) with
    (ls := ls) (s := s) (s0 := boot) as [Hall _].
  - simpl. repeat split.
  - intros f. destruct f; simpl; repeat split.
    match goal with r : bool |- _ => destruct r end; exact I.
  - constructor.
  - exact Hboot.
  - exact Hsteps.
  - intros e He. rewrite Forall_forall in Hall. specialize (Hall e He).
    destruct (is_adc_read e); [discriminate Hall | reflexivity].
Qed.

End SystemProperties.

(** ** More on [setup] *)

Section SetupShape.
Context {F : Floating}.

Lemma trace_print_prediction (w : World) (h : list Event) (x : double) :
  trace w h (print_prediction x) =
  printout_round x
    (answer_double w h (LinReg_predict x))
    (answer_double w
       (h ++ [ReturnedDouble (LinReg_predict x)
                (answer_double w h (LinReg_predict x))])
       (LinReg_predict x)).
Proof.
  unfold print_prediction, printout_round, rounded.
  cbn [bind ask_double]. rewrite trace_AskDouble.
  destruct (double_ltb (answer_double w h (LinReg_predict x)) (double_lit 0));
    cbn [bind call ask_double]; rewrite trace_AskDouble; reflexivity.
Qed.

Lemma printout_rounds_cons (x : double) (xs : list double)
  (p : double * double) (ps : list (double * double)) :
  printout_rounds (x :: xs) (p :: ps) =
  printout_round x (fst p) (snd p) ++ printout_rounds xs ps.
Proof. reflexivity. Qed.

Lemma for_each_rounds (w : World) (xs : list double) :
  forall h, exists ps,
    List.length ps = List.length xs /\
    trace w h (for_each xs print_prediction) = printout_rounds xs ps.
Proof.
  induction xs as [| x xs IH]; intros h.
  - exists []. split; reflexivity.
  - cbn [for_each]. rewrite trace_bind, trace_print_prediction.
    match goal with
    | |- context [printout_round x ?p1 ?p2 ++ trace w ?h' _] =>
        destruct (IH h') as [ps [Hlen Hps]]; exists ((p1, p2) :: ps);
        rewrite Hps
    end.
    split; [simpl; rewrite Hlen; reflexivity | reflexivity].
Qed.

Lemma printout_rounds_length (xs : list double)
  (ps : list (double * double)) :
  List.length ps = List.length xs ->
  List.length (printout_rounds xs ps) = (3 * List.length xs)%nat.
Proof.
  revert ps. induction xs as [| x xs IH]; intros [| p ps] Hlen;
    try discriminate Hlen; [reflexivity |].
  rewrite printout_rounds_cons, length_app, IH
    by (injection Hlen as Hlen; exact Hlen).
  simpl. lia.
Qed.

(** X7: after a successful training [setup] goes through the training
    inputs in order and, for each input, calls [predict] twice and then
    prints one integer with the format ["%d "]: the first result only
    decides the direction of the rounding, the second one is the value that
    is rounded.  With the three calls before the training and the six after
    the loop, [setup] makes 43 driver calls. *)
Theorem setup_printout_rounds (w : World) (h : list Event) :
  In (ReturnedBool (LinReg_train 100) true) (trace w h setup) ->
  exists ps : list (double * double),
    List.length ps = List.length trainingInput /\
    trace w h setup =
      setup_prologue ++ ReturnedBool (LinReg_train 100) true ::
      printout_rounds trainingInput ps ++ setup_epilogue /\
    List.length (trace w h setup) = 43%nat.
Proof.
  intros Hok. apply setup_reports in Hok.
  assert (Hshape : exists ps : list (double * double),
    List.length ps = List.length trainingInput /\
    trace w h setup =
      setup_prologue ++ ReturnedBool (LinReg_train 100) true ::
      printout_rounds trainingInput ps ++ setup_epilogue).
  { unfold setup. cbn [bind call ask_bool].
    rewrite !trace_Do, trace_AskBool. rewrite <- !app_assoc. cbn [app].
    fold setup_prologue. rewrite Hok. cbn [negb].
    unfold setup_trained. rewrite trace_seq.
    match goal with
    | |- context [trace w ?h' (for_each trainingInput print_prediction)] =>
        destruct (for_each_rounds w trainingInput h') as [ps [Hlen Hps]]
    end.
    exists ps. split; [exact Hlen |]. rewrite Hps. reflexivity. }
  destruct Hshape as [ps [Hlen Hshape]].
  exists ps. split; [exact Hlen |]. split; [exact Hshape |].
  rewrite Hshape. unfold setup_prologue, setup_epilogue.
  cbn [app List.length].
  rewrite length_app, printout_rounds_length by exact Hlen.
  reflexivity.
Qed.

(** X9: [setup] ends in exactly one of two ways.  It sets the error LED
    exactly when [train] returned [false], it enables the button's
    interrupt exactly when [train] returned [true], and it never does
    both. *)
Theorem setup_outcome (w : World) (h : list Event) :
  (In (Called (GPIO_set errorLed)) (trace w h setup) <->
   In (ReturnedBool (LinReg_train 100) false) (trace w h setup)) /\
  (In (Called (GPIO_enableInterrupt predictionButton)) (trace w h setup) <->
   In (ReturnedBool (LinReg_train 100) true) (trace w h setup)) /\
  ~ (In (Called (GPIO_set errorLed)) (trace w h setup) /\
     In (Called (GPIO_enableInterrupt predictionButton)) (trace w h setup)).
Proof.
  assert (Hcases :
    (In (Called (GPIO_set errorLed)) (trace w h setup) /\
     In (ReturnedBool (LinReg_train 100) false) (trace w h setup) /\
     ~ In (Called (GPIO_enableInterrupt predictionButton))
         (trace w h setup) /\
     ~ In (ReturnedBool (LinReg_train 100) true) (trace w h setup)) \/
    (In (Called (GPIO_enableInterrupt predictionButton)) (trace w h setup) /\
     In (ReturnedBool (LinReg_train 100) true) (trace w h setup) /\
     ~ In (Called (GPIO_set errorLed)) (trace w h setup) /\
     ~ In (ReturnedBool (LinReg_train 100) false) (trace w h setup))).
  { destruct (trace_setup w h) as [[Ha Ht] | [Ha [printout [Hp Ht]]]].
    - left. repeat split.
      + rewrite Ht. simpl. auto 10.
      + apply setup_trains, Ha.
      + rewrite Ht. simpl. intros He.
        repeat (destruct He as [He | He]; [discriminate He |]).
        exact He.
      + intros He. apply setup_reports in He. congruence.
    - right. repeat split.
      + rewrite Ht. apply in_or_app. right. right. apply in_or_app. right.
        simpl. auto 10.
      + apply setup_trains, Ha.
      + rewrite Ht. intros He. unfold setup_prologue in He. simpl in He.
        repeat (destruct He as [He | He]; [discriminate He |]).
        apply in_app_or in He. destruct He as [He | He].
        * rewrite Forall_forall in Hp. apply Hp in He. discriminate He.
        * simpl in He.
          repeat (destruct He as [He | He]; [discriminate He |]).
          exact He.
      + intros He. apply setup_reports in He. congruence. }
  destruct Hcases as [[H1 [H2 [H3 H4]]] | [H1 [H2 [H3 H4]]]];
    repeat split; intros; try assumption; try contradiction; tauto.
Qed.

End SetupShape.

(** ** Rounding in exact arithmetic *)



(** ** Progress of the main thread and the handlers *)

Section Progress.
Context {F : Floating} {B : Board}.

Lemma finishes_within_le {A : Type} (p : Prog A) :
  forall n m, (n <= m)%nat -> finishes_within n p -> finishes_within m p.
Proof.
  induction p as [a | c k IH | q k IH | q k IH]; intros n m Hle Hp;
    simpl in *; trivial;
    (destruct n as [| n]; [contradiction |]);
    (destruct m as [| m]; [lia |]).
  - apply (IH n); [lia | exact Hp].
  - intros r. apply (IH r n); [lia | apply Hp].
  - intros r. apply (IH r n); [lia | apply Hp].
Qed.

Lemma finishes_within_bind {A C : Type} (p : Prog A) (f : A -> Prog C)
  (b : nat) :
  (forall x, finishes_within b (f x)) ->
  forall a, finishes_within a p -> finishes_within (a + b) (bind p f).
Proof.
  intros Hf.
  induction p as [x | c k IH | q k IH | q k IH]; intros a Hp; simpl in *.
  - apply (finishes_within_le (f x) b); [lia | apply Hf].
  - destruct a as [| a]; [contradiction |]. simpl. apply IH, Hp.
  - destruct a as [| a]; [contradiction |]. simpl. intros r. apply IH, Hp.
  - destruct a as [| a]; [contradiction |]. simpl. intros r. apply IH, Hp.
Qed.

Lemma print_prediction_finishes (x : double) :
  finishes_within 3 (print_prediction x).
Proof.
  unfold print_prediction. simpl. intros p.
  destruct (double_ltb p (double_lit 0)); simpl; intros p'; exact I.
Qed.

Lemma for_each_finishes (xs : list double) :
  finishes_within (3 * List.length xs) (for_each xs print_prediction).
Proof.
  induction xs as [| x xs IH]; cbn [for_each].
  - exact I.
  - replace (3 * List.length (x :: xs))%nat
      with (3 + 3 * List.length xs)%nat by (simpl; lia).
    apply (finishes_within_bind (print_prediction x)
             (fun _ => for_each xs print_prediction)).
    + intros _. exact IH.
    + apply print_prediction_finishes.
Qed.

(** The static construction and [setup] return after at most 47 driver
    calls. *)
Lemma boot_finishes :
  finishes_within 47 (static_initialization ;; setup).
Proof.
  unfold static_initialization, setup.
  cbn [bind call ask_bool finishes_within].
  intros trained. destruct trained; cbn [negb bind call finishes_within].
  - unfold setup_trained.
    refine (finishes_within_bind
              (for_each trainingInput print_prediction)
              (fun _ =>
                 call (GPIO_addCallback predictionButton fn_buttonCallback) ;;
                 call (Timer_addCallback debounceTimer
                         fn_debounceTimerCallback) ;;
                 call (Timer_addCallback predictionTimer
                         fn_predictionTimerCallback) ;;
                 call (GPIO_enableInterrupt predictionButton) ;;
                 call (watchdog_init watchdog.Timeout1024ms) ;;
                 call watchdog_enableSystemReset) 6 _ 33 _).
    + intros _. exact I.
    + apply (for_each_finishes trainingInput).
  - exact I.
Qed.

Lemma history_grows (w : World) (l : Step) (s s' : System) (e : Event) :
  step w l s = Some s' -> In e (history s) -> In e (history s').
Proof.
  intros Hstep Hin. destruct l as [| i]; simpl in Hstep.
  - destruct (pc s) as [[] | c k | q k | q k]; injection Hstep as <-;
      cbn [history]; try exact Hin; apply in_or_app; left; exact Hin.
  - destruct (irq_handler (hardware_after (history s)) i) as [f |];
      [| discriminate Hstep].
    injection Hstep as <-. cbn [history]. apply in_or_app. left. exact Hin.
Qed.

Lemma reset_within_step (w : World) (l : Step) (s s' : System) (k : nat) :
  step w l s = Some s' ->
  reset_within (match l with MainStep => S k | Interrupt _ => k end) s ->
  reset_within k s'.
Proof.
  intros Hstep [Hin | [[n [Hn Hfin]] | [Hk Hloop]]].
  - left. apply (history_grows w l s s'); assumption.
  - destruct l as [| i]; simpl in Hstep.
    + destruct (pc s) as [[] | c k' | q k' | q k'];
        injection Hstep as <-; simpl in Hfin.
      * right. right. split; [lia | reflexivity].
      * destruct n as [| n]; [contradiction |].
        right. left. exists n. split; [lia | exact Hfin].
      * destruct n as [| n]; [contradiction |].
        right. left. exists n. split; [lia | apply Hfin].
      * destruct n as [| n]; [contradiction |].
        right. left. exists n. split; [lia | apply Hfin].
    + destruct (irq_handler (hardware_after (history s)) i) as [f |];
        [| discriminate Hstep].
      injection Hstep as <-. right. left. exists n. split; assumption.
  - destruct l as [| i]; simpl in Hstep.
    + rewrite Hloop in Hstep. simpl in Hstep. injection Hstep as <-.
      left. cbn [history]. apply in_or_app. right. left. reflexivity.
    + destruct (irq_handler (hardware_after (history s)) i) as [f |];
        [| discriminate Hstep].
      injection Hstep as <-. right. right. split; assumption.
Qed.

Lemma reset_within_steps (w : World) (ls : list Step) :
  forall k s s',
    reset_within k s -> steps w ls s = Some s' ->
    (k <= main_steps ls)%nat ->
    In (Called watchdog_reset) (history s').
Proof.
  induction ls as [| l ls IH]; intros k s s' Hk Hsteps Hle;
    simpl in Hsteps.
  - injection Hsteps as <-. simpl in Hle.
    destruct Hk as [Hin | [[n [Hn _]] | [Hk _]]]; [exact Hin | lia | lia].
  - destruct (step w l s) as [s1 |] eqn:Hstep; [| discriminate Hsteps].
    destruct l as [| i]; simpl in Hle.
    + destruct k as [| k].
      * apply (IH 0%nat s1 s'); [| exact Hsteps | lia].
        destruct Hk as [Hin | [[n [Hn _]] | [Hk _]]]; [| lia | lia].
        left. apply (history_grows w MainStep s s1); assumption.
      * apply (IH k s1 s'); [| exact Hsteps | lia].
        apply (reset_within_step w MainStep s s1 k Hstep Hk).
    + apply (IH k s1 s'); [| exact Hsteps | exact Hle].
      apply (reset_within_step w (Interrupt i) s s1 k Hstep Hk).
Qed.

(** X11: [setup] always returns and the main loop is always reached.  In
    every world, and whatever interrupts are delivered in between, once the
    main thread has made 49 steps (at most 47 driver calls of the static
    construction and [setup], the entry into the loop, the first call of the
    loop body) [watchdog::reset()] has been called. *)
Theorem main_loop_always_reached (w : World) (ls : list Step) (s : System) :
  steps w ls boot = Some s ->
  (49 <= main_steps ls)%nat ->
  In (Called watchdog_reset) (history s).
Proof.
  intros Hsteps Hle.
  apply (reset_within_steps w ls 49%nat boot s); [| exact Hsteps | exact Hle].
  right. left. exists 47%nat. split; [lia | apply boot_finishes].
Qed.

(** X10: the interrupt handlers never service the watchdog.  Each of the
    three callbacks makes at most three driver calls, none of them to the
    watchdog; so a delivered interrupt leaves the sequence of watchdog
    calls as it was and does not move the main thread. *)
Theorem handlers_never_service_watchdog (w : World) :
  (forall f h,
     (List.length (trace w h (callback_body f)) <= 3)%nat /\
     watchdog_log (trace w h (callback_body f)) = []) /\
  forall s i s',
    step w (Interrupt i) s = Some s' ->
    watchdog_log (history s') = watchdog_log (history s) /\
    pc s' = pc s.
Proof.
  assert (Hcode : forall f h,
    (List.length (trace w h (callback_body f)) <= 3)%nat /\
    watchdog_log (trace w h (callback_body f)) = []).
  { intros f h. destruct f; cbn [callback_body].
    - rewrite buttonCallback_trace_shape. split; [simpl; lia | reflexivity].
    - split; [simpl; lia | reflexivity].
    - split; [simpl; lia | reflexivity]. }
  split; [exact Hcode |].
  intros s i s' Hstep. simpl in Hstep.
  destruct (irq_handler (hardware_after (history s)) i) as [f |];
    [| discriminate Hstep].
  injection Hstep as <-. cbn [history pc]. split; [| reflexivity].
  rewrite watchdog_log_app, (proj2 (Hcode f (history s))).
  apply app_nil_r.
Qed.

End Progress.

(** ** Closed instances

    The theorems above, applied on the rational platform in a world where
    training succeeds or fails and the button reads as pressed. *)

#[local] Existing Instance rational_floating.
#[local] Existing Instance eight_pin_ports.

Lemma buttonCallback_press_example :
  run (fixed_world true true) [] buttonCallback =
  (tt, [Called (GPIO_disableInterruptsOnIoPort predictionButton);
        Called (Timer_start debounceTimer);
        ReturnedBool (GPIO_read predictionButton) true]).
Proof.
  apply (buttonCallback_press_dispatches_nothing (fixed_world true true) []).
  reflexivity.
Defined.

Lemma setup_failure_example :
  trace (fixed_world false true) [] setup =
    [Called adc_init;
     Called serial_init;
     Called (LinReg_construct (double_lit 0) (double_lit 0)
               trainingInput treiningOutput (double_lit (1 # 10)));
     ReturnedBool (LinReg_train 100) false;
     Called (GPIO_set errorLed);
     Called (serial_printf ("Training failed!" ++ newline) [])] /\
  (forall e, In e (trace (fixed_world false true) [] setup) ->
     registers_callback e = false /\ enables_interrupt e = false /\
     touches_watchdog e = false) /\
  List.length (filter is_training (trace (fixed_world false true) [] setup)) =
  1%nat.
Proof.
  apply (setup_aborts_on_training_failure (fixed_world false true) []).
  apply setup_trains. reflexivity.
Defined.

Lemma registration_order_example :
  exists t1 t2,
    trace (fixed_world true true) [] setup =
      t1 ++ Called (GPIO_enableInterrupt predictionButton) :: t2 /\
    In (Called (GPIO_addCallback predictionButton fn_buttonCallback)) t1 /\
    (forall e, In e t1 -> enables_interrupt e = false) /\
    (forall e, In e t2 -> enables_interrupt e = false).
Proof.
  apply (proj1 (callbacks_registered_before_interrupts_enabled
                  (fixed_world true true) [])).
  apply setup_trains. reflexivity.
Defined.

Lemma watchdog_setup_example :
  exists before,
    trace (fixed_world true true) [] setup =
      before ++ [Called (watchdog_init watchdog.Timeout1024ms);
                 Called watchdog_enableSystemReset] /\
    (forall e, In e before -> touches_watchdog e = false) /\
    List.length
      (filter is_watchdog_init (trace (fixed_world true true) [] setup))
    = 1%nat /\
    watchdog.milliseconds watchdog.Timeout1024ms = 1024 /\
    forall n : nat,
      trace (fixed_world true true) [] (main_upto n) =
        before ++ [Called (watchdog_init watchdog.Timeout1024ms);
                   Called watchdog_enableSystemReset]
               ++ repeat (Called watchdog_reset) n.
Proof.
  apply (watchdog_initialised_once_then_committed (fixed_world true true) []).
  apply setup_trains. reflexivity.
Defined.

(** The button interrupt arrives right after [enableInterrupt], while [setup]
    is still to initialise the watchdog; three steps of the main thread
    follow. *)
Lemma debounce_handshake_example :
  exists s,
    steps (fixed_world true true)
      (repeat MainStep 45 ++ button_irq :: [MainStep; MainStep; MainStep])
      boot = Some s /\
    button_port_enabled (hardware_after (history s)) = false /\
    step (fixed_world true true) button_irq s = None.
Proof.
  assert (Hrun :
    match steps (fixed_world true true)
            (repeat MainStep 45 ++
             button_irq :: [MainStep; MainStep; MainStep]) boot
    with
    | Some _ => true
    | None => false
    end = true) by (vm_compute; reflexivity).
  destruct (steps (fixed_world true true)
              (repeat MainStep 45 ++
               button_irq :: [MainStep; MainStep; MainStep]) boot)
    as [s |] eqn:Hsteps; [| discriminate Hrun].
  exists s. split; [reflexivity |].
  destruct (proj2 (proj2 (proj2
              (debounce_handshake_exclusive (fixed_world true true))))
              (repeat MainStep 45) [MainStep; MainStep; MainStep] s Hsteps)
    as [Hport [_ Hirq]].
  - intros [H | [H | [H | []]]]; discriminate H.
  - split; [exact Hport | exact Hirq].
Defined.

Lemma training_failure_example :
  (forall n : nat,
     program_trace (fixed_world false true) n =
       trace (fixed_world false true) [] static_initialization ++
       setup_failure_trace ++ repeat (Called watchdog_reset) n /\
     forall e, In e (program_trace (fixed_world false true) n) ->
       is_watchdog_arming e = false) /\
  (forall ls s,
     steps (fixed_world false true) ls boot = Some s ->
     (forall l, In l ls -> l = MainStep) /\
     wdt_timeout (hardware_after (history s)) = None /\
     wdt_system_reset (hardware_after (history s)) =
     false /\
     ~ watchdog_armed (hardware_after (history s))).
Proof.
  apply (training_failure_leaves_watchdog_unarmed
           (fixed_world false true)).
  apply setup_trains. reflexivity.
Defined.

Lemma watchdog_protocol_example :
  exists s,
    steps (fixed_world true true) supervised_run boot = Some s /\
    ((exists n,
        watchdog_log (history s) = repeat (Called watchdog_reset) n /\
        (n <> 0%nat ->
         In (ReturnedBool (LinReg_train 100) false) (history s))) \/
     (watchdog_log (history s) =
        [Called (watchdog_init watchdog.Timeout1024ms)] /\
      In (ReturnedBool (LinReg_train 100) true) (history s)) \/
     (exists n,
        watchdog_log (history s) =
          [Called (watchdog_init watchdog.Timeout1024ms);
           Called watchdog_enableSystemReset] ++
          repeat (Called watchdog_reset) n /\
        In (ReturnedBool (LinReg_train 100) true) (history s))).
Proof.
  assert (Hrun :
    match steps (fixed_world true true) supervised_run boot with
    | Some _ => true
    | None => false
    end = true) by (vm_compute; reflexivity).
  destruct (steps (fixed_world true true) supervised_run boot)
    as [s |] eqn:Hsteps; [| discriminate Hrun].
  exists s. split; [reflexivity |].
  apply (watchdog_protocol (fixed_world true true) supervised_run s Hsteps).
Defined.

Lemma operating_modes_example :
  exists s,
    steps (fixed_world false true) degraded_run boot = Some s /\
    In (ReturnedBool (LinReg_train 100) false) (history s) /\
    ~ watchdog_armed (hardware_after (history s)) /\
    gpio_output (hardware_after (history s)) (GPIO.pin errorLed) = true.
Proof.
  assert (Hrun :
    match steps (fixed_world false true) degraded_run boot with
    | Some s => existsb is_reset_call (history s)
    | None => false
    end = true) by (vm_compute; reflexivity).
  destruct (steps (fixed_world false true) degraded_run boot)
    as [s |] eqn:Hsteps; [| discriminate Hrun].
  exists s. split; [reflexivity |].
  destruct (operating_modes (fixed_world false true) degraded_run s Hsteps
              (existsb_reset_call (history s) Hrun))
    as [[_ [_ [_ [Hpin _]]]] | [Hfail [Hun [_ [[Hpins _] Hled]]]]].
  - assert (Hoff :
      match steps (fixed_world false true) degraded_run boot with
      | Some s =>
          negb (pin_interrupt (hardware_after (history s))
                  (GPIO.pin predictionButton))
      | None => false
      end = true) by (vm_compute; reflexivity).
    rewrite Hsteps, Hpin in Hoff. discriminate Hoff.
  - repeat split; assumption.
Defined.


Lemma press_then_elapse_example :
  exists s level s',
    steps (fixed_world true true) supervised_run boot = Some s /\
    steps (fixed_world true true) [button_irq; debounce_irq] s = Some s' /\
    history s' =
      history s ++
      [Called (GPIO_disableInterruptsOnIoPort predictionButton);
       Called (Timer_start debounceTimer);
       ReturnedBool (GPIO_read predictionButton) level;
       Called (Timer_stop debounceTimer);
       Called (GPIO_enableInterruptsOnIoPort predictionButton)] /\
    button_port_enabled (hardware_after (history s')) = true.
Proof.
  assert (Hrun :
    match steps (fixed_world true true) supervised_run boot with
    | Some s =>
        pin_interrupt (hardware_after (history s))
          (GPIO.pin predictionButton) &&
        negb (timer_running (hardware_after (history s))
                (Timer.circuit debounceTimer))
    | None => false
    end = true) by (vm_compute; reflexivity).
  destruct (steps (fixed_world true true) supervised_run boot)
    as [s |] eqn:Hsteps; [| discriminate Hrun].
  apply andb_prop in Hrun. destruct Hrun as [Hpin Hidle].
  apply negb_true_iff in Hidle.
  destruct (press_then_elapse_restores_idle (fixed_world true true)
              supervised_run s Hsteps Hpin Hidle)
    as [level [s' [Hgo [Hhist [_ [Hport _]]]]]].
  exists s, level, s'. repeat split; assumption.
Defined.

Lemma interrupt_dispatch_example :
  exists s,
    steps (fixed_world true true) supervised_run boot = Some s /\
    step (fixed_world true true)
      (Interrupt (TimerElapsed (Timer.circuit predictionTimer))) s = None.
Proof.
  assert (Hrun :
    match steps (fixed_world true true) supervised_run boot with
    | Some _ => true
    | None => false
    end = true) by (vm_compute; reflexivity).
  destruct (steps (fixed_world true true) supervised_run boot)
    as [s |] eqn:Hsteps; [| discriminate Hrun].
  exists s. split; [reflexivity |].
  apply (interrupt_dispatch (fixed_world true true) supervised_run s Hsteps).
Defined.

Lemma adc_never_read_example :
  exists s,
    steps (fixed_world true true) supervised_run boot = Some s /\
    forall e, In e (history s) -> is_adc_read e = false.
Proof.
  assert (Hrun :
    match steps (fixed_world true true) supervised_run boot with
    | Some _ => true
    | None => false
    end = true) by (vm_compute; reflexivity).
  destruct (steps (fixed_world true true) supervised_run boot)
    as [s |] eqn:Hsteps; [| discriminate Hrun].
  exists s. split; [reflexivity |].
  apply (adc_never_read (fixed_world true true) supervised_run s Hsteps).
Defined.

Lemma setup_printout_rounds_example :
  exists ps : list (Q * Q),
    List.length ps = List.length trainingInput /\
    trace (fixed_world true true) [] setup =
      setup_prologue ++ ReturnedBool (LinReg_train 100) true ::
      printout_rounds trainingInput ps ++ setup_epilogue /\
    List.length (trace (fixed_world true true) [] setup) = 43%nat.
Proof.
  apply (setup_printout_rounds (fixed_world true true) []).
  apply setup_trains. reflexivity.
Defined.

Lemma handlers_never_service_watchdog_example :
  exists s s',
    steps (fixed_world true true) enabling_run boot = Some s /\
    step (fixed_world true true) button_irq s = Some s' /\
    watchdog_log (history s') = watchdog_log (history s) /\
    pc s' = pc s.
Proof.
  assert (Hrun :
    match steps (fixed_world true true) enabling_run boot with
    | Some s =>
        match step (fixed_world true true) button_irq s with
        | Some _ => true
        | None => false
        end
    | None => false
    end = true) by (vm_compute; reflexivity).
  destruct (steps (fixed_world true true) enabling_run boot)
    as [s |] eqn:Hsteps; [| discriminate Hrun].
  destruct (step (fixed_world true true) button_irq s)
    as [s' |] eqn:Hstep; [| discriminate Hrun].
  exists s, s'. split; [reflexivity |]. split; [exact Hstep |].
  apply (proj2 (handlers_never_service_watchdog (fixed_world true true))
           s (PinChange (GPIO.pin predictionButton)) s' Hstep).
Defined.

Lemma main_loop_always_reached_example :
  exists s,
    steps (fixed_world true true) supervised_run boot = Some s /\
    In (Called watchdog_reset) (history s).
Proof.
  assert (Hrun :
    match steps (fixed_world true true) supervised_run boot with
    | Some _ => true
    | None => false
    end = true) by (vm_compute; reflexivity).
  destruct (steps (fixed_world true true) supervised_run boot)
    as [s |] eqn:Hsteps; [| discriminate Hrun].
  exists s. split; [reflexivity |].
  apply (main_loop_always_reached (fixed_world true true) supervised_run s
           Hsteps).
  apply Nat.leb_le. reflexivity.
Defined.
